(** * buildutil.linux: the Linux-specific BuildEnvironment

    A shallow embedding of [buildutil/linux.py] together with the parts of
    the Python standard library it calls ([shlex.split], [os.getenv],
    [argparse]'s registration of options) and the operations it inherits
    from [buildutil.common]. *)

From Stdlib Require Import ZArith Lia Ascii.
From Equations Require Import Equations.
From stdpp Require Import base option list strings gmap.


(** ** Python values, exceptions and results *)

Module Py.

(** The values that occur in an arguments dictionary: [None], booleans,
    integers and (byte) strings. *)
Inductive value :=
| PNone
| PBool (b : bool)
| PInt (n : Z)
| PStr (s : string).

(** Python's truth value testing, as used by [if x:], [not x] and [or]. *)
Definition truthy (v : value) : bool :=
  match v with
  | PNone => false
  | PBool b => b
  | PInt n => negb (n =? 0)%Z
  | PStr EmptyString => false
  | PStr (String _ _) => true
  end.

(** [a or b] *)
Definition or_ (a b : value) : value := if truthy a then a else b.

Inductive exn :=
| KeyError (key : string)
| TypeError (msg : string)
| AttributeError (msg : string)
| ValueError (msg : string)
| ArgumentError (msg : string)
| ToolPathError (binary : string) (path : value)
| SubCommandError (argv : list value) (return_code : option Z).

Inductive result (A : Type) :=
| Ok (a : A)
| Raise (e : exn).
Arguments Ok {A} a.
Arguments Raise {A} e.

Definition bind {A B} (r : result A) (k : A -> result B) : result B :=
  match r with
  | Ok a => k a
  | Raise e => Raise e
  end.

(** A dictionary with string keys. *)
Abbreviation dict := (gmap string value).

(** [d[key]]: a missing key raises [KeyError]. *)
Definition getitem (d : dict) (key : string) : result value :=
  match d !! key with
  | Some v => Ok v
  | None => Raise (KeyError key)
  end.

#[global] Instance value_eq_dec : EqDecision value.
Proof. solve_decision. Defined.

(** What a constructor is called with: a value whose type is exactly
    [dict]; an instance of any other class that has an attribute dictionary
    (an [argparse.Namespace], say), given by that dictionary; or a value
    without one. *)
Inductive arguments :=
| ArgDict (d : dict)
| ArgObject (attrs : dict)
| ArgOther (v : value).

(** [vars(arguments)]: the attribute dictionary of an object. *)
Definition vars (a : arguments) : result dict :=
  match a with
  | ArgObject attrs => Ok attrs
  | _ => Raise (TypeError "vars() argument must have __dict__ attribute")
  end.

End Py.
Import Py.

#[global] Instance result_ret : MRet Py.result := @Py.Ok.
#[global] Instance result_bind : MBind Py.result :=
  fun A B k r => Py.bind r k.

(** ** shlex.split

    The lexer of the standard library's [shlex] module, in the configuration
    that [shlex.split(s, posix=p)] sets up: [whitespace_split = True],
    [commenters = ''], no punctuation characters, an empty push-back queue
    and no input stack. *)

Module shlex.

(** The [state] attribute: [None] past the end of the input, [' '] between
    tokens, ['a'] inside a word, or the quote or escape character that
    opened the current quoted or escaped section. *)
Inductive lexstate :=
| StEOF
| StSpace
| StWord
| StQuote (q : ascii)
| StEscape (e : ascii).

Definition in_whitespace (c : ascii) : bool :=
  (c =? " ")%char || (c =? "009")%char || (c =? "013")%char || (c =? "010")%char.

Definition in_quotes (c : ascii) : bool :=
  (c =? "'")%char || (c =? "034")%char.

Definition in_escape (c : ascii) : bool := (c =? "\")%char.

Definition in_escapedquotes (c : ascii) : bool := (c =? "034")%char.

(** [wordchars]: letters, digits and underscore, and in POSIX mode the
    accented Latin-1 letters as well. *)
Definition in_wordchars (posix : bool) (c : ascii) : bool :=
  let n := nat_of_ascii c in
  ((97 <=? n)%nat && (n <=? 122)%nat) || ((65 <=? n)%nat && (n <=? 90)%nat)
  || ((48 <=? n)%nat && (n <=? 57)%nat) || (n =? 95)%nat
  || (posix && (192 <=? n)%nat && negb (n =? 215)%nat
      && negb (n =? 247)%nat).

Definition nonempty (s : string) : bool :=
  match s with
  | EmptyString => false
  | String _ _ => true
  end.

(** [token + nextchar] *)
Definition add_char (token : string) (c : ascii) : string :=
  token +:+ String c EmptyString.

(** The variables the loop of [read_token] works on: the attributes
    [state] and [token], and the locals [quoted] and [escapedstate]. *)
Record frame := Frame {
  state : lexstate;
  token : string;
  quoted : bool;
  escapedstate : lexstate
}.

Inductive control := Continue | Break.

(** [escapedstate in self.quotes] *)
Definition is_quote_state (s : lexstate) : bool :=
  match s with
  | StQuote q => in_quotes q
  | _ => false
  end.

(** [nextchar != escapedstate] *)
Definition differs_from_state (c : ascii) (s : lexstate) : bool :=
  match s with
  | StQuote q => negb (c =? q)%char
  | StEscape e => negb (c =? e)%char
  | StSpace => negb (c =? " ")%char
  | StWord => negb (c =? "a")%char
  | StEOF => true
  end.

(** [if self.token or (self.posix and quoted): break else: continue] *)
Definition emit_or_continue (posix : bool) (f : frame) : control :=
  if nonempty (token f) || (posix && quoted f) then Break else Continue.

(** One iteration of the [while True] loop of [read_token] for a
    character that was read from the input. *)
Definition on_char (posix : bool) (f : frame) (nextchar : ascii)
  : frame * control :=
  match state f with
  | StEOF =>
      (Frame StEOF "" (quoted f) (escapedstate f), Break)
  | StSpace =>
      if in_whitespace nextchar then
        (f, emit_or_continue posix f)
      else if posix && in_escape nextchar then
        (Frame (StEscape nextchar) (token f) (quoted f) StWord, Continue)
      else if in_wordchars posix nextchar then
        (Frame StWord (String nextchar "") (quoted f) (escapedstate f),
         Continue)
      else if in_quotes nextchar then
        (Frame (StQuote nextchar)
               (if negb posix then String nextchar "" else token f)
               (quoted f) (escapedstate f),
         Continue)
      else (* self.whitespace_split *)
        (Frame StWord (String nextchar "") (quoted f) (escapedstate f),
         Continue)
  | StQuote q =>
      if (nextchar =? q)%char then
        if negb posix then
          (Frame StSpace (add_char (token f) nextchar) true (escapedstate f),
           Break)
        else
          (Frame StWord (token f) true (escapedstate f), Continue)
      else if posix && in_escape nextchar && in_escapedquotes q then
        (Frame (StEscape nextchar) (token f) true (StQuote q), Continue)
      else
        (Frame (StQuote q) (add_char (token f) nextchar) true
               (escapedstate f),
         Continue)
  | StEscape e =>
      let token1 :=
        if is_quote_state (escapedstate f) && negb (nextchar =? e)%char
           && differs_from_state nextchar (escapedstate f)
        then add_char (token f) e else token f in
      (Frame (escapedstate f) (add_char token1 nextchar) (quoted f)
             (escapedstate f),
       Continue)
  | StWord =>
      if in_whitespace nextchar then
        let f' := Frame StSpace (token f) (quoted f) (escapedstate f) in
        (f', emit_or_continue posix f')
      else if posix && in_quotes nextchar then
        (Frame (StQuote nextchar) (token f) (quoted f) (escapedstate f),
         Continue)
      else if posix && in_escape nextchar then
        (Frame (StEscape nextchar) (token f) (quoted f) StWord, Continue)
      else (* wordchars, quotes, or self.whitespace_split *)
        (Frame StWord (add_char (token f) nextchar) (quoted f)
               (escapedstate f),
         Continue)
  end.

(** One iteration of the loop when [read(1)] returns the empty string:
    the input is exhausted. It either leaves the loop or raises. *)
Definition on_eof (f : frame) : result frame :=
  match state f with
  | StEOF => Ok (Frame StEOF "" (quoted f) (escapedstate f))
  | StSpace => Ok (Frame StEOF (token f) (quoted f) (escapedstate f))
  | StQuote _ => Raise (ValueError "No closing quotation")
  | StEscape _ => Raise (ValueError "No escaped character")
  | StWord => Ok (Frame StEOF (token f) (quoted f) (escapedstate f))
  end.

(** The [while True] loop of [read_token]: it returns the frame at the
    [break] and the input that is left. *)
Fixpoint read_loop (posix : bool) (f : frame) (instream : list ascii)
  : result (frame * list ascii) :=
  match instream with
  | [] => f' ← on_eof f; Ok (f', [])
  | nextchar :: rest =>
      match on_char posix f nextchar with
      | (f', Break) => Ok (f', rest)
      | (f', Continue) => read_loop posix f' rest
      end
  end.

(** The lexer object: the attributes that [split] reads or changes. *)
Record lexer := Lexer {
  instream : list ascii;
  posix : bool;
  lstate : lexstate;
  ltoken : string
}.

(** [shlex(s, posix=posix)] *)
Definition new (s : string) (posix : bool) : lexer :=
  Lexer (String.list_ascii_of_string s) posix StSpace "".

(** [self.eof]: [None] in POSIX mode, [''] otherwise. *)
Definition eof (posix : bool) : value :=
  if posix then PNone else PStr "".

(** [read_token]; [get_token] returns its result unchanged, since nothing
    is pushed back and no source is stacked. *)
Definition read_token (lx : lexer) : result (value * lexer) :=
  '(f, rest) ← read_loop (posix lx)
                  (Frame (lstate lx) (ltoken lx) false StSpace)
                  (instream lx);
  let result := token f in
  let lx' := Lexer rest (posix lx) (state f) "" in
  if posix lx && negb (quoted f) && negb (nonempty result)
  then Ok (PNone, lx')
  else Ok (PStr result, lx').

(** [next]: [None] stands for [StopIteration]. *)
Definition next (lx : lexer) : result (option (value * lexer)) :=
  '(tok, lx') ← read_token lx;
  if decide (tok = eof (posix lx)) then Ok None else Ok (Some (tok, lx')).

(** What is left to do: the unread input, and the step from the last
    character to the state past the end. *)
Definition remaining (lx : lexer) : nat :=
  2 * length (instream lx)
  + match lstate lx with StEOF => 0 | _ => 1 end.

Lemma read_loop_progress posix f ins f' rest :
  read_loop posix f ins = Ok (f', rest) ->
  length rest < length ins
  \/ (ins = [] /\ rest = [] /\ state f' = StEOF /\ quoted f' = quoted f
      /\ (state f = StEOF -> token f' = "")).
Proof.
  revert f. induction ins as [|c ins IH]; intros f H.
  - right. cbn in H. destruct f as [st tk q es]; destruct st; cbn in H;
      inversion H; subst; cbn; repeat split; congruence.
  - left. cbn in H. destruct (on_char posix f c) as [f1 [|]].
    + apply IH in H. cbn. destruct H as [H | (-> & -> & _)]; cbn; lia.
    + inversion H; subst. cbn. lia.
Qed.

Lemma next_remaining lx tok lx' :
  next lx = Ok (Some (tok, lx')) -> remaining lx' < remaining lx.
Proof.
  unfold next, read_token. destruct lx as [ins px st tk]. cbn.
  destruct (read_loop px (Frame st tk false StSpace) ins) as [[f rest]|e] eqn:E;
    cbn; [|discriminate].
  apply read_loop_progress in E. unfold remaining, eof. cbn in *.
  destruct E as [E | (-> & -> & E1 & E2 & E3)].
  - destruct (px && negb (quoted f) && negb (nonempty (token f)));
      cbn; destruct (decide _); try discriminate;
      intros [= <- <-]; cbn; destruct (state f); lia.
  - destruct st.
    1: { rewrite E2, (E3 eq_refl). destruct px; cbn; discriminate. }
    all: destruct (px && negb (quoted f) && negb (nonempty (token f)));
      cbn; destruct (decide _); try discriminate;
      intros [= <- <-]; cbn; rewrite E1; lia.
Qed.

(** [list(lex)]: the tokens up to [StopIteration]. *)
Equations? tokens (lx : lexer) : result (list value)
  by wf (remaining lx) lt :=
  tokens lx with Equations.Prop.Logic.inspect (next lx) := {
    | exist _ (Raise e) _ => Raise e
    | exist _ (Ok None) _ => Ok []
    | exist _ (Ok (Some (tok, lx'))) H =>
        toks ← tokens lx'; Ok (tok :: toks) }.
Proof. eapply next_remaining; eassumption. Qed.

(** [shlex.split(s, posix=posix)] *)
Definition split (s : string) (posix : bool) : result (list value) :=
  tokens (new s posix).

End shlex.


(** ** The process environment and the operating system *)

Module os.

(** How an attempt to run a child process ends. *)
Inductive outcome :=
| LaunchFailed
| Exited (returncode : Z).

Record world := World {
  (** [os.environ] *)
  environ : gmap string string;
  (** [distutils.spawn.find_executable(name)]: the file name of the first
      match for [name] on the executable search path, if there is one. *)
  search_path : string -> option string;
  (** Whether a path names an existing, executable file. *)
  is_executable : string -> bool;
  (** What running an argument vector in a working directory does. *)
  run : list value -> value -> outcome
}.

(** [os.getenv(key)] *)
Definition getenv (w : world) (key : string) : value :=
  match environ w !! key with
  | Some s => PStr s
  | None => PNone
  end.

(** [distutils.spawn.find_executable(name)] *)
Definition find_executable (w : world) (name : string) : value :=
  match search_path w name with
  | Some f => PStr f
  | None => PNone
  end.

End os.

(** ** Stateful operations

    A method runs on a state that holds the object it is called on and the
    child processes launched so far (oldest first); it returns or raises,
    and leaves a state behind in both cases. *)

Module Run.

Record call := Call {
  argv : list value;
  cwd : value
}.

Record state (S : Type) := State {
  self : S;
  spawned : list call
}.
Arguments State {S} self spawned.
Arguments self {S} s.
Arguments spawned {S} s.

(** [M σ A]: a computation on a state of type [σ]. *)
Definition M (σ A : Type) : Type := σ -> result A * σ.

Definition ret {σ A} (a : A) : M σ A := fun st => (Ok a, st).

Definition bind {σ A B} (m : M σ A) (k : A -> M σ B) : M σ B :=
  fun st =>
    match m st with
    | (Ok a, st') => k a st'
    | (Raise e, st') => (Raise e, st')
    end.

(** A computation without effects, which may raise. *)
Definition lift {σ A} (r : result A) : M σ A := fun st => (r, st).

(** [self.attr] *)
Definition getattr {S A} (attr : S -> A) : M (state S) A :=
  fun st => (Ok (attr (self st)), st).

(** Launching a child process: the call is recorded. *)
Definition spawn {S} (c : call) : M (state S) unit :=
  fun st => (Ok tt, State (self st) (spawned st ++ [c])).

End Run.

#[global] Instance M_ret {σ} : MRet (Run.M σ) := @Run.ret σ.
#[global] Instance M_bind {σ} : MBind (Run.M σ) :=
  fun A B k m => Run.bind m k.

(** ** argparse: the registration surface

    An [ArgumentParser] as the options registered on it, oldest first. *)

Module argparse.

Record action := Action {
  option_strings : list string;
  help : string;
  dest : string;
  default : value
}.

Definition parser := list action.

(** The option strings that are already taken. *)
Definition registered (p : parser) : list string :=
  concat (map option_strings p).

(** [parser.add_argument(flag, ..., help=..., dest=..., default=...)] with the
    default conflict handler: an option string that is already registered
    raises [ArgumentError]; otherwise the new action is added. *)
Definition add_argument (flags : list string) (help dest : string)
    (default : value) : Run.M parser unit :=
  fun p =>
    if existsb (fun f => bool_decide (f ∈ registered p)) flags
    then (Raise (ArgumentError "conflicting option string"), p)
    else (Ok tt, p ++ [Action flags help dest default]).

End argparse.


(** ** buildutil.common: the base class *)

Module common.

(** The attributes of the base class that the Linux sub-module reads. *)
Record BuildEnvironment := Build {
  project_directory : value;
  _posix : bool
}.

(** The operations of the base class that the sub-module calls and that
    are not specified further: the initializer, the defaults and the
    registration of the shared options. *)
Record base := Base {
  __init__ : arguments -> result BuildEnvironment;
  build_defaults : dict;
  add_arguments : Run.M argparse.parser unit
}.

(** Modelled from the spec: [buildutil/common.py] is not among the
    sources. [_check_binary(name, path)] validates that [path] resolves to
    an existing, executable binary and fails with [ToolPathError] when the
    path is empty, missing or not executable; it launches nothing. *)
Definition _check_binary (w : os.world) (name : string) (path : value)
  : result unit :=
  match path with
  | PStr s =>
      if truthy path && os.is_executable w s then Ok tt
      else Raise (ToolPathError name path)
  | _ => Raise (ToolPathError name path)
  end.

(** Modelled from the spec: [buildutil/common.py] is not among the
    sources. [run_subprocess(argv, cwd=cwd)] executes the argument vector
    as a subprocess in the working directory [cwd] and waits for it; it
    fails with [SubCommandError], carrying the exit status or cause, when
    the subprocess fails to launch or exits non-zero, and returns no value
    otherwise. *)
Definition run_subprocess {S} (w : os.world) (argv : list value)
    (cwd : value) : Run.M (Run.state S) unit :=
  Run.spawn (Run.Call argv cwd);;
  match os.run w argv cwd with
  | os.LaunchFailed => Run.lift (Raise (SubCommandError argv None))
  | os.Exited returncode =>
      if (returncode =? 0)%Z then Run.ret tt
      else Run.lift (Raise (SubCommandError argv (Some returncode)))
  end.

End common.

(** ** buildutil.linux *)

Module linux.

Definition _CMAKE_PATH_ENV_VAR : string := "CMAKE_PATH".
Definition _CMAKE_FLAGS_ENV_VAR : string := "CMAKE_FLAGS".
Definition _CMAKE_PATH : string := "cmake_path".
Definition _CMAKE_FLAGS : string := "cmake_flags".

(** The Linux build environment: the base class's attributes and
    [cmake_path] and [cmake_flags]. *)
Record BuildEnvironment := Build {
  super : common.BuildEnvironment;
  cmake_path : value;
  cmake_flags : value
}.

Definition project_directory (self : BuildEnvironment) : value :=
  common.project_directory (super self).

Definition _posix (self : BuildEnvironment) : bool :=
  common._posix (super self).

(** [shlex.split(flags, posix=...)] on a true value: a string is
    tokenized; a number has no [read] method to take the input from. *)
Definition shlex_split (flags : value) (posix : bool)
  : result (list value) :=
  match flags with
  | PStr s => shlex.split s posix
  | _ => Raise (AttributeError "read")
  end.

Section BuildEnvironment.

Variable w : os.world.
Variable base : common.base.

Definition __init__ (arguments : Py.arguments) : result BuildEnvironment :=
  super ← common.__init__ base arguments;
  args ← match arguments with
         | ArgDict d => Ok d             (* type(arguments) is dict *)
         | _ => vars arguments
         end;
  cmake_path ← getitem args _CMAKE_PATH;
  cmake_flags ← getitem args _CMAKE_FLAGS;
  Ok (Build super cmake_path cmake_flags).

Definition build_defaults : dict :=
  let args := common.build_defaults base in
  let args :=
    <[_CMAKE_PATH := or_ (os.getenv w _CMAKE_PATH_ENV_VAR)
                         (os.find_executable w "cmake")]> args in
  let args := <[_CMAKE_FLAGS := os.getenv w _CMAKE_FLAGS_ENV_VAR]> args in
  args.

Definition add_arguments : Run.M argparse.parser unit :=
  let defaults := build_defaults in
  common.add_arguments base;;
  default ← Run.lift (getitem defaults _CMAKE_PATH);
  argparse.add_argument ["-c"; "--" +:+ _CMAKE_PATH]
        "Path to CMake binary" _CMAKE_PATH default;;
  default ← Run.lift (getitem defaults _CMAKE_FLAGS);
  argparse.add_argument ["-F"; "--" +:+ _CMAKE_FLAGS]
    "Flags to use to override CMake flags" _CMAKE_FLAGS default.

Definition run_cmake (gen : string)
  : Run.M (Run.state BuildEnvironment) unit :=
  path ← Run.getattr cmake_path;
  Run.lift (common._check_binary w "cmake" path);;
  path ← Run.getattr cmake_path;
  let args := [path; PStr "-G"; PStr gen] in
  flags ← Run.getattr cmake_flags;
  args ← (if truthy flags then
            flags ← Run.getattr cmake_flags;
            posix ← Run.getattr _posix;
            tokens ← Run.lift (shlex_split flags posix);
            Run.ret (args ++ tokens)
          else Run.ret args);
  directory ← Run.getattr project_directory;
  let args := args ++ [directory] in
  cwd ← Run.getattr project_directory;
  common.run_subprocess w args cwd.

End BuildEnvironment.

(** [run_cmake()]: the generator defaults to Unix Makefiles. *)
Definition run_cmake_default (w : os.world)
  : Run.M (Run.state BuildEnvironment) unit :=
  run_cmake w "Unix Makefiles".

End linux.

(** * Properties *)

(** ** The lexer *)

Module shlex_facts.
Import shlex.

Lemma on_eof_raises f e :
  on_eof f = Raise e -> exists msg, e = ValueError msg.
Proof.
  unfold on_eof. destruct (state f); intros [=]; subst; eauto.
Qed.

Lemma read_loop_raises posix f ins e :
  read_loop posix f ins = Raise e -> exists msg, e = ValueError msg.
Proof.
  revert f. induction ins as [|c ins IH]; intros f; cbn.
  - destruct (on_eof f) eqn:E; cbn; [discriminate|].
    intros [= <-]. eapply on_eof_raises, E.
  - destruct (on_char posix f c) as [f' [|]]; [apply IH | discriminate].
Qed.

Lemma next_raises lx e :
  next lx = Raise e -> exists msg, e = ValueError msg.
Proof.
  unfold next, read_token.
  destruct (read_loop _ _ _) as [[f rest]|e'] eqn:E; cbn.
  - destruct (_ && _); cbn; destruct (decide _); discriminate.
  - intros [= <-]. eapply read_loop_raises, E.
Qed.

(** The iteration, one step unfolded. *)
Lemma tokens_unfold lx :
  tokens lx =
  match next lx with
  | Raise e => Raise e
  | Ok None => Ok []
  | Ok (Some (tok, lx')) => toks ← tokens lx'; Ok (tok :: toks)
  end.
Proof.
  funelim (tokens lx);
    match goal with E : next _ = _ |- _ => rewrite E end; reflexivity.
Qed.

(** Tokenizing fails only with [ValueError]. *)
Lemma tokens_raises lx e :
  tokens lx = Raise e -> exists msg, e = ValueError msg.
Proof.
  revert e. funelim (tokens lx); intros e0.
  - destruct (tokens lx') as [toks|e1]; cbn; [discriminate|].
    intros [= <-]. eauto.
  - discriminate.
  - intros [= <-]. eapply next_raises. eassumption.
Qed.

(** Every token is a string. *)
Lemma next_is_string lx tok lx' :
  next lx = Ok (Some (tok, lx')) -> exists s, tok = PStr s.
Proof.
  unfold next, read_token.
  destruct (read_loop _ _ _) as [[f rest]|e'] eqn:E; cbn; [|discriminate].
  destruct (posix lx); cbn;
    [destruct (negb (quoted f) && negb (nonempty (token f))); cbn|];
    destruct (decide _); try discriminate; intros [= <- <-];
    eauto; congruence.
Qed.

Lemma tokens_are_strings lx toks :
  tokens lx = Ok toks -> Forall (fun tok => exists s, tok = PStr s) toks.
Proof.
  revert toks. funelim (tokens lx); intros toks0.
  - destruct (tokens lx') as [toks|e1] eqn:E; cbn; [|discriminate].
    intros [= <-]. constructor; [eapply next_is_string; eassumption | eauto].
  - intros [= <-]. constructor.
  - discriminate.
Qed.

(** *** Flags without quotes or escapes

    On input that holds no quote and no backslash the lexer splits at
    whitespace, in both modes. *)

(** The words of a character list: the maximal runs without whitespace. *)
Fixpoint words (cur : string) (l : list ascii) : list string :=
  match l with
  | [] => if nonempty cur then [cur] else []
  | c :: l' =>
      if in_whitespace c
      then (if nonempty cur then cur :: words "" l' else words "" l')
      else words (add_char cur c) l'
  end.

Definition plain (c : ascii) : bool := negb (in_quotes c) && negb (in_escape c).

Lemma nonempty_add_char cur c : nonempty (add_char cur c) = true.
Proof. unfold add_char. destruct cur; reflexivity. Qed.

Lemma on_char_plain_word posix cur es c :
  plain c = true -> in_whitespace c = false ->
  on_char posix (Frame StWord cur false es) c
  = (Frame StWord (add_char cur c) false es, Continue).
Proof.
  unfold plain, on_char. cbn. intros [Hq He]%andb_prop Hw.
  apply negb_true_iff in Hq, He. rewrite Hw, Hq, He.
  rewrite !andb_false_r. reflexivity.
Qed.

Lemma on_char_plain_space posix es c :
  plain c = true -> in_whitespace c = false ->
  on_char posix (Frame StSpace "" false es) c
  = (Frame StWord (add_char "" c) false es, Continue).
Proof.
  unfold plain, on_char. cbn. intros [Hq He]%andb_prop Hw.
  apply negb_true_iff in Hq, He. rewrite Hw, Hq, He.
  rewrite !andb_false_r. destruct (in_wordchars posix c); reflexivity.
Qed.

Lemma on_char_whitespace_word posix cur es c :
  in_whitespace c = true -> nonempty cur = true ->
  on_char posix (Frame StWord cur false es) c
  = (Frame StSpace cur false es, Break).
Proof.
  intros Hw Hc. unfold on_char, emit_or_continue. cbn. rewrite Hw. cbn.
  rewrite Hc. reflexivity.
Qed.

Lemma on_char_whitespace_space posix es c :
  in_whitespace c = true ->
  on_char posix (Frame StSpace "" false es) c
  = (Frame StSpace "" false es, Continue).
Proof.
  intros Hw. unfold on_char, emit_or_continue. cbn. rewrite Hw. cbn.
  rewrite andb_false_r. reflexivity.
Qed.

(** Inside a word: the loop stops at the next whitespace or at the end. *)
Lemma read_loop_word posix es ins : forall cur,
  forallb plain ins = true -> nonempty cur = true ->
  exists tok rest,
    nonempty tok = true
    /\ ((read_loop posix (Frame StWord cur false es) ins
         = Ok (Frame StSpace tok false es, rest)
         /\ words cur ins = tok :: words "" rest
         /\ length rest < length ins)
        \/ (read_loop posix (Frame StWord cur false es) ins
            = Ok (Frame StEOF tok false es, [])
            /\ rest = [] /\ words cur ins = [tok])).
Proof.
  induction ins as [|c ins IH]; intros cur Hp Hc.
  - exists cur, []. split; [exact Hc|]. right. cbn. rewrite Hc. auto.
  - cbn in Hp. apply andb_prop in Hp as [Hpc Hp].
    destruct (in_whitespace c) eqn:Hw.
    + exists cur, ins. split; [exact Hc|]. left.
      cbn [read_loop words].
      rewrite on_char_whitespace_word, Hw, Hc by assumption. cbn. auto.
    + destruct (IH (add_char cur c) Hp (nonempty_add_char _ _))
        as (tok & rest & Ht & H).
      exists tok, rest. split; [exact Ht|].
      cbn [read_loop words]. rewrite on_char_plain_word, Hw by assumption.
      destruct H as [(H1 & H2 & H3) | (H1 & H2 & H3)]; [left | right];
        repeat split; try assumption. cbn. lia.
Qed.

(** Between words: whitespace is skipped up to the next word or the end. *)
Lemma read_loop_space posix es ins :
  forallb plain ins = true ->
  (exists tok rest,
      nonempty tok = true
      /\ ((read_loop posix (Frame StSpace "" false es) ins
           = Ok (Frame StSpace tok false es, rest)
           /\ words "" ins = tok :: words "" rest
           /\ length rest < length ins)
          \/ (read_loop posix (Frame StSpace "" false es) ins
              = Ok (Frame StEOF tok false es, [])
              /\ rest = [] /\ words "" ins = [tok])))
  \/ (read_loop posix (Frame StSpace "" false es) ins
      = Ok (Frame StEOF "" false es, [])
      /\ words "" ins = []).
Proof.
  induction ins as [|c ins IH]; intros Hp.
  - right. auto.
  - cbn in Hp. apply andb_prop in Hp as [Hpc Hp].
    destruct (in_whitespace c) eqn:Hw.
    + cbn [read_loop words].
      rewrite on_char_whitespace_space, Hw by assumption. cbn [nonempty].
      destruct (IH Hp) as [(tok & rest & Ht & H) | H]; [left | right; exact H].
      exists tok, rest. split; [exact Ht|].
      destruct H as [(H1 & H2 & H3) | (H1 & H2 & H3)]; [left | right];
        repeat split; try assumption. cbn. lia.
    + left. cbn [read_loop words]. rewrite on_char_plain_space, Hw by assumption.
      destruct (read_loop_word posix es ins (add_char "" c) Hp
                  (nonempty_add_char _ _)) as (tok & rest & Ht & H).
      exists tok, rest. split; [exact Ht|].
      destruct H as [(H1 & H2 & H3) | (H1 & H2 & H3)]; [left | right];
        repeat split; try assumption. cbn. lia.
Qed.

Lemma tokens_at_eof posix : tokens (Lexer [] posix StEOF "") = Ok [].
Proof. rewrite tokens_unfold. destruct posix; reflexivity. Qed.

Lemma next_emits posix ins st tok rest :
  nonempty tok = true ->
  read_loop posix (Frame StSpace "" false StSpace) ins
  = Ok (Frame st tok false StSpace, rest) ->
  next (Lexer ins posix StSpace "")
  = Ok (Some (PStr tok, Lexer rest posix st "")).
Proof.
  intros Ht H. unfold next, read_token. cbn. rewrite H. cbn. rewrite Ht.
  rewrite andb_false_r. cbn.
  destruct (decide _) as [E|_]; [|reflexivity].
  destruct tok; [discriminate|]. destruct posix; discriminate.
Qed.

Lemma tokens_plain posix ins :
  forallb plain ins = true ->
  tokens (Lexer ins posix StSpace "") = Ok (map PStr (words "" ins)).
Proof.
  remember (length ins) as n eqn:Hn. revert ins Hn.
  induction n as [n IH] using lt_wf_ind. intros ins -> Hp.
  rewrite tokens_unfold.
  destruct (read_loop_space posix StSpace ins Hp)
    as [(tok & rest & Ht & [(H1 & H2 & H3) | (H1 & -> & H3)]) | (H1 & H2)].
  - rewrite (next_emits _ _ _ _ _ Ht H1), H2.
    rewrite (IH (length rest) H3 rest eq_refl); [reflexivity|].
    clear -Hp H1. revert H1. generalize (Frame StSpace "" false StSpace).
    induction ins as [|c ins IHi]; intros f; cbn.
    + destruct (on_eof f); cbn; [|discriminate]. intros [= _ <-]. reflexivity.
    + cbn in Hp. apply andb_prop in Hp as [_ Hp].
      destruct (on_char posix f c) as [f' [|]]; [eauto|].
      intros [= _ <-]. exact Hp.
  - rewrite (next_emits _ _ _ _ _ Ht H1), H3, tokens_at_eof. reflexivity.
  - rewrite H2. unfold next, read_token. cbn. rewrite H1.
    destruct posix; reflexivity.
Qed.

(** [shlex.split] on flags without quotes and escapes. *)
Lemma split_plain s posix :
  forallb plain (String.list_ascii_of_string s) = true ->
  split s posix = Ok (map PStr (words "" (String.list_ascii_of_string s))).
Proof. apply tokens_plain. Qed.

(** *** The two modes on quotes and escapes *)

Example split_posix_quotes :
  split "-DNAME='a b' -Wdev" true = Ok [PStr "-DNAME=a b"; PStr "-Wdev"].
Proof. vm_compute. reflexivity. Qed.

Example split_non_posix_quotes :
  split "-DNAME='a b' -Wdev" false
  = Ok [PStr "-DNAME='a"; PStr "b'"; PStr "-Wdev"].
Proof. vm_compute. reflexivity. Qed.

Example split_posix_escape : split "a\ b" true = Ok [PStr "a b"].
Proof. vm_compute. reflexivity. Qed.

Example split_non_posix_escape :
  split "a\ b" false = Ok [PStr "a\"; PStr "b"].
Proof. vm_compute. reflexivity. Qed.

Example split_non_posix_quoted_token :
  split "'a b' c" false = Ok [PStr "'a b'"; PStr "c"].
Proof. vm_compute. reflexivity. Qed.

Example split_open_quote posix :
  split "'a b" posix = Raise (ValueError "No closing quotation").
Proof. destruct posix; vm_compute; reflexivity. Qed.

Example split_whitespace_only posix : split "  " posix = Ok [].
Proof. destruct posix; vm_compute; reflexivity. Qed.

End shlex_facts.

(** ** run_cmake *)

Module run_cmake_facts.
Import Run linux.

(** The tokens that [run_cmake] puts between the generator and the project
    directory. *)
Definition flag_tokens (self : BuildEnvironment) : result (list value) :=
  if truthy (cmake_flags self)
  then shlex_split (cmake_flags self) (_posix self)
  else Ok [].

(** The argument vector for a list of flag tokens. *)
Definition cmake_argv (self : BuildEnvironment) (gen : string)
    (tokens : list value) : list value :=
  [cmake_path self; PStr "-G"; PStr gen] ++ tokens
  ++ [project_directory self].

Lemma run_subprocess_eq {S} w argv cwd (st : state S) :
  common.run_subprocess w argv cwd st =
  (match os.run w argv cwd with
   | os.LaunchFailed => Raise (SubCommandError argv None)
   | os.Exited rc =>
       if (rc =? 0)%Z then Ok tt
       else Raise (SubCommandError argv (Some rc))
   end,
   State (self st) (spawned st ++ [Call argv cwd])).
Proof.
  unfold common.run_subprocess, mbind, M_bind, bind, spawn. cbn.
  destruct (os.run w argv cwd) as [|rc]; [reflexivity|].
  destruct (rc =? 0)%Z; reflexivity.
Qed.

(** [run_cmake] in three steps: the check, the tokens, the subprocess. *)
Lemma run_cmake_eq w gen st :
  run_cmake w gen st =
  match common._check_binary w "cmake" (cmake_path (self st)) with
  | Raise e => (Raise e, st)
  | Ok _ =>
      match flag_tokens (self st) with
      | Raise e => (Raise e, st)
      | Ok tokens =>
          common.run_subprocess w (cmake_argv (self st) gen tokens)
            (project_directory (self st)) st
      end
  end.
Proof.
  unfold run_cmake, flag_tokens, cmake_argv, mbind, M_bind, bind, getattr,
    lift, mret, M_ret, ret.
  destruct (common._check_binary _ _ _); [|reflexivity].
  destruct (truthy (cmake_flags (self st))); [|reflexivity].
  destruct (shlex_split _ _); [|reflexivity].
  reflexivity.
Qed.

Lemma flag_tokens_raises self e :
  flag_tokens self = Raise e ->
  (exists msg, e = ValueError msg) \/ (exists msg, e = AttributeError msg).
Proof.
  unfold flag_tokens, shlex_split.
  destruct (truthy _); [|discriminate].
  destruct (cmake_flags self); try (intros [= <-]; eauto).
  intros H. left. eapply shlex_facts.tokens_raises, H.
Qed.

Lemma app_singleton_neq {A} (l : list A) (x : A) : l <> l ++ [x].
Proof.
  intros H. apply (f_equal length) in H. rewrite length_app in H.
  cbn in H. lia.
Qed.

End run_cmake_facts.

(** ** build_defaults *)

Module defaults_facts.
Import linux.

Lemma lookup_cmake_path w base :
  build_defaults w base !! "cmake_path"
  = Some (or_ (os.getenv w "CMAKE_PATH") (os.find_executable w "cmake")).
Proof.
  unfold build_defaults, _CMAKE_PATH, _CMAKE_FLAGS.
  rewrite lookup_insert_ne by discriminate.
  rewrite lookup_insert_eq. reflexivity.
Qed.

Lemma lookup_cmake_flags w base :
  build_defaults w base !! "cmake_flags" = Some (os.getenv w "CMAKE_FLAGS").
Proof.
  unfold build_defaults, _CMAKE_FLAGS. rewrite lookup_insert_eq. reflexivity.
Qed.

End defaults_facts.

(** ** A concrete environment

    A world in which [CMAKE_PATH] is set and [/usr/bin/cmake] is the only
    executable, a base class that accepts every arguments value, and a build
    environment for the project in [/src/project]. *)

Module sample.

Definition w : os.world :=
  os.World {[ "CMAKE_PATH" := "/opt/cmake/bin/cmake" ]}
           (fun _ => None)
           (fun p => bool_decide (p = "/usr/bin/cmake"))
           (fun _ _ => os.Exited 0).

Definition base : common.base :=
  common.Base (fun _ => Ok (common.Build (PStr "/src/project") true))
              ∅
              (fun p => (Ok tt, p)).

Definition env (path flags : value) : linux.BuildEnvironment :=
  linux.Build (common.Build (PStr "/src/project") true) path flags.

Definition start (path flags : value)
  : Run.state linux.BuildEnvironment :=
  Run.State (env path flags) [].

Definition args : dict :=
  {[ "cmake_path" := PStr "/usr/bin/cmake"; "cmake_flags" := PNone ]}.

(** The same world with a [cmake] that exits with status 1. *)
Definition failing : os.world :=
  os.World (os.environ w) (os.search_path w) (os.is_executable w)
           (fun _ _ => os.Exited 1).

End sample.

(** ** The claims *)

Section Claims.
Import Run linux run_cmake_facts.

(** C1: a successful [run_cmake(gen)] launches exactly one subprocess; its
    argument vector is [cmake_path], ["-G"], [gen], then the tokens of
    [cmake_flags] when that is set and non-empty, then
    [project_directory]; its working directory is [project_directory].
    In particular the flags ["-DFOO=1 -DBAR=2"] give the two tokens
    ["-DFOO=1"] and ["-DBAR=2"] between the generator and the project
    directory. *)
Theorem run_cmake_invocation w gen st st' :
  run_cmake w gen st = (Ok tt, st') ->
  (exists tokens,
      (if truthy (cmake_flags (self st))
       then shlex_split (cmake_flags (self st)) (_posix (self st))
            = Ok tokens
       else tokens = [])
      /\ spawned st' =
         spawned st ++
         [Call ([cmake_path (self st); PStr "-G"; PStr gen] ++ tokens
                ++ [project_directory (self st)])
               (project_directory (self st))])
  /\ (cmake_flags (self st) = PStr "-DFOO=1 -DBAR=2" ->
      spawned st' =
      spawned st ++
      [Call [cmake_path (self st); PStr "-G"; PStr gen;
             PStr "-DFOO=1"; PStr "-DBAR=2"; project_directory (self st)]
            (project_directory (self st))]).
Proof.
  rewrite run_cmake_eq.
  destruct (common._check_binary _ _ _); [|discriminate].
  destruct (flag_tokens (self st)) as [tokens|] eqn:T; [|discriminate].
  rewrite run_subprocess_eq. intros [= _ <-]. cbn [spawned]. split.
  - exists tokens. split; [|reflexivity].
    unfold flag_tokens in T. destruct (truthy _); congruence.
  - intros F. unfold flag_tokens in T. rewrite F in T. cbn in T.
    assert (tokens = [PStr "-DFOO=1"; PStr "-DBAR=2"]) as ->;
      [|reflexivity].
    destruct (_posix (self st)); vm_compute in T; congruence.
Qed.

Lemma run_cmake_invocation_witness :
  run_cmake sample.w "Ninja"
    (sample.start (PStr "/usr/bin/cmake") (PStr "-DFOO=1 -DBAR=2"))
  = (Ok tt,
     State (sample.env (PStr "/usr/bin/cmake") (PStr "-DFOO=1 -DBAR=2"))
       [Call [PStr "/usr/bin/cmake"; PStr "-G"; PStr "Ninja";
              PStr "-DFOO=1"; PStr "-DBAR=2"; PStr "/src/project"]
             (PStr "/src/project")])
  /\ [Call [PStr "/usr/bin/cmake"; PStr "-G"; PStr "Ninja";
            PStr "-DFOO=1"; PStr "-DBAR=2"; PStr "/src/project"]
           (PStr "/src/project")]
     = [] ++
       [Call [PStr "/usr/bin/cmake"; PStr "-G"; PStr "Ninja";
              PStr "-DFOO=1"; PStr "-DBAR=2"; PStr "/src/project"]
             (PStr "/src/project")].
Proof.
  assert (run_cmake sample.w "Ninja"
            (sample.start (PStr "/usr/bin/cmake") (PStr "-DFOO=1 -DBAR=2"))
          = (Ok tt,
             State (sample.env (PStr "/usr/bin/cmake")
                               (PStr "-DFOO=1 -DBAR=2"))
               [Call [PStr "/usr/bin/cmake"; PStr "-G"; PStr "Ninja";
                      PStr "-DFOO=1"; PStr "-DBAR=2"; PStr "/src/project"]
                     (PStr "/src/project")])) as H
    by (vm_compute; reflexivity).
  split; [exact H|].
  exact (proj2 (run_cmake_invocation _ _ _ _ H) eq_refl).
Defined.

(** C2: with an empty or unset [cmake_path], [run_cmake] raises
    [ToolPathError] and launches no subprocess: the state it leaves is the
    one it started from. *)
Theorem run_cmake_tool_path_error w gen st :
  truthy (cmake_path (self st)) = false ->
  run_cmake w gen st
  = (Raise (ToolPathError "cmake" (cmake_path (self st))), st).
Proof.
  intros H. rewrite run_cmake_eq. unfold common._check_binary.
  destruct (cmake_path (self st)) as [| | |s]; try reflexivity.
  rewrite H. reflexivity.
Qed.

Lemma run_cmake_tool_path_error_witness :
  truthy (cmake_path (self (sample.start (PStr "") PNone))) = false
  /\ run_cmake sample.w "Unix Makefiles" (sample.start (PStr "") PNone)
     = (Raise (ToolPathError "cmake" (PStr "")),
        sample.start (PStr "") PNone).
Proof.
  split; [reflexivity|].
  apply (run_cmake_tool_path_error sample.w "Unix Makefiles"
           (sample.start (PStr "") PNone)).
  reflexivity.
Defined.

(** C3: when the binary check passes and the flags are tokenized,
    [run_cmake] launches the subprocess, and it raises [SubCommandError]
    exactly when that subprocess fails to launch or exits with a non-zero
    status; when the subprocess exits with status 0 it returns normally,
    with no value. When the tokenizer rejects the flags nothing is
    launched and the error is not a [SubCommandError]. *)
Theorem run_cmake_sub_command_error w gen st :
  common._check_binary w "cmake" (cmake_path (self st)) = Ok tt ->
  match (if truthy (cmake_flags (self st))
         then shlex_split (cmake_flags (self st)) (_posix (self st))
         else Ok []) with
  | Ok tokens =>
      exists c,
        argv c = [cmake_path (self st); PStr "-G"; PStr gen] ++ tokens
                 ++ [project_directory (self st)]
        /\ cwd c = project_directory (self st)
        /\ spawned (run_cmake w gen st).2 = spawned st ++ [c]
        /\ ((exists a rc,
                (run_cmake w gen st).1 = Raise (SubCommandError a rc))
            <-> (os.run w (argv c) (cwd c) = os.LaunchFailed
                 \/ exists rc, os.run w (argv c) (cwd c) = os.Exited rc
                               /\ rc <> 0%Z))
        /\ (os.run w (argv c) (cwd c) = os.Exited 0 ->
            (run_cmake w gen st).1 = Ok tt)
  | Raise e =>
      run_cmake w gen st = (Raise e, st)
      /\ forall a rc, e <> SubCommandError a rc
  end.
Proof.
  intros Hc. rewrite run_cmake_eq, Hc.
  change (if truthy (cmake_flags (self st))
          then shlex_split (cmake_flags (self st)) (_posix (self st))
          else Ok [])
    with (flag_tokens (self st)).
  destruct (flag_tokens (self st)) as [tokens|e] eqn:T.
  - rewrite run_subprocess_eq. cbn [fst snd spawned].
    exists (Call (cmake_argv (self st) gen tokens)
                 (project_directory (self st))).
    cbn [argv cwd].
    split; [reflexivity|]. split; [reflexivity|]. split; [reflexivity|].
    split; [split|].
    + intros (a & rc & H).
      destruct (os.run w _ _) as [|n]; [left; reflexivity|].
      right. exists n. split; [reflexivity|].
      intros ->. discriminate.
    + intros [-> | (rc & -> & Hrc)]; [eauto|].
      destruct (Z.eqb_spec rc 0); [contradiction|eauto].
    + intros ->. reflexivity.
  - split; [reflexivity|]. intros a rc ->.
    apply flag_tokens_raises in T as [[m [=]] | [m [=]]].
Qed.

Lemma run_cmake_sub_command_error_witness :
  common._check_binary sample.failing "cmake" (PStr "/usr/bin/cmake") = Ok tt
  /\ run_cmake sample.failing "Unix Makefiles"
       (sample.start (PStr "/usr/bin/cmake") PNone)
     = (Raise (SubCommandError
                 [PStr "/usr/bin/cmake"; PStr "-G"; PStr "Unix Makefiles";
                  PStr "/src/project"] (Some 1%Z)),
        State (sample.env (PStr "/usr/bin/cmake") PNone)
          [Call [PStr "/usr/bin/cmake"; PStr "-G"; PStr "Unix Makefiles";
                 PStr "/src/project"]
                (PStr "/src/project")])
  /\ exists c,
       argv c = [PStr "/usr/bin/cmake"; PStr "-G"; PStr "Unix Makefiles"]
                ++ [] ++ [PStr "/src/project"]
       /\ cwd c = PStr "/src/project"
       /\ spawned (run_cmake sample.failing "Unix Makefiles"
                     (sample.start (PStr "/usr/bin/cmake") PNone)).2
          = [] ++ [c]
       /\ ((exists a rc,
               (run_cmake sample.failing "Unix Makefiles"
                  (sample.start (PStr "/usr/bin/cmake") PNone)).1
               = Raise (SubCommandError a rc))
           <-> (os.run sample.failing (argv c) (cwd c) = os.LaunchFailed
                \/ exists rc,
                     os.run sample.failing (argv c) (cwd c) = os.Exited rc
                     /\ rc <> 0%Z))
       /\ (os.run sample.failing (argv c) (cwd c) = os.Exited 0 ->
           (run_cmake sample.failing "Unix Makefiles"
              (sample.start (PStr "/usr/bin/cmake") PNone)).1 = Ok tt).
Proof.
  split; [reflexivity|]. split; [vm_compute; reflexivity|].
  exact (run_cmake_sub_command_error sample.failing "Unix Makefiles"
           (sample.start (PStr "/usr/bin/cmake") PNone) eq_refl).
Defined.

(** C5: with [cmake_flags] unset or empty no token is inserted: the argument
    vector of the subprocess is exactly [cmake_path], ["-G"], [gen],
    [project_directory]. *)
Theorem run_cmake_without_flags w gen st :
  truthy (cmake_flags (self st)) = false ->
  common._check_binary w "cmake" (cmake_path (self st)) = Ok tt ->
  spawned (run_cmake w gen st).2
  = spawned st ++
    [Call [cmake_path (self st); PStr "-G"; PStr gen;
           project_directory (self st)]
          (project_directory (self st))].
Proof.
  intros Hf Hc. rewrite run_cmake_eq, Hc. unfold flag_tokens. rewrite Hf.
  rewrite run_subprocess_eq. reflexivity.
Qed.

Lemma run_cmake_without_flags_witness :
  truthy (PStr "") = false
  /\ common._check_binary sample.w "cmake" (PStr "/usr/bin/cmake") = Ok tt
  /\ spawned (run_cmake sample.w "Unix Makefiles"
                (sample.start (PStr "/usr/bin/cmake") (PStr ""))).2
     = [] ++
       [Call [PStr "/usr/bin/cmake"; PStr "-G"; PStr "Unix Makefiles";
              PStr "/src/project"]
             (PStr "/src/project")].
Proof.
  split; [reflexivity|]. split; [reflexivity|].
  apply (run_cmake_without_flags sample.w "Unix Makefiles"
           (sample.start (PStr "/usr/bin/cmake") (PStr "")));
    reflexivity.
Defined.

(** C6: a set, non-empty [cmake_flags] is tokenized by [shlex.split] in the
    mode that the base environment's [_posix] flag selects, and the tokens
    are appended, in order, after the generator argument; when the
    tokenizer rejects the flags, its error is raised and nothing is
    launched. *)
Theorem run_cmake_tokenizes_flags w gen st flags :
  cmake_flags (self st) = PStr flags ->
  flags <> "" ->
  common._check_binary w "cmake" (cmake_path (self st)) = Ok tt ->
  match shlex.split flags (_posix (self st)) with
  | Ok tokens =>
      spawned (run_cmake w gen st).2
      = spawned st ++
        [Call ([cmake_path (self st); PStr "-G"; PStr gen] ++ tokens
               ++ [project_directory (self st)])
              (project_directory (self st))]
  | Raise e => run_cmake w gen st = (Raise e, st)
  end.
Proof.
  intros Hf Hne Hc. rewrite run_cmake_eq, Hc. unfold flag_tokens.
  rewrite Hf. destruct flags as [|c flags]; [contradiction|].
  cbn [truthy shlex_split].
  destruct (shlex.split _ _) as [tokens|e]; [|reflexivity].
  rewrite run_subprocess_eq. reflexivity.
Qed.

Lemma run_cmake_tokenizes_flags_witness :
  "-DNAME='a b' -Wdev" <> ""
  /\ common._check_binary sample.w "cmake" (PStr "/usr/bin/cmake") = Ok tt
  /\ spawned (run_cmake sample.w "Unix Makefiles"
                (sample.start (PStr "/usr/bin/cmake")
                              (PStr "-DNAME='a b' -Wdev"))).2
     = [] ++
       [Call ([PStr "/usr/bin/cmake"; PStr "-G"; PStr "Unix Makefiles"]
              ++ [PStr "-DNAME=a b"; PStr "-Wdev"]
              ++ [PStr "/src/project"])
             (PStr "/src/project")].
Proof.
  split; [discriminate|]. split; [reflexivity|].
  exact (run_cmake_tokenizes_flags sample.w "Unix Makefiles"
           (sample.start (PStr "/usr/bin/cmake") (PStr "-DNAME='a b' -Wdev"))
           "-DNAME='a b' -Wdev" eq_refl ltac:(discriminate) eq_refl).
Defined.

(** C9: [run_cmake] leaves the object as it found it, whether it returns or
    raises: [cmake_path] and [cmake_flags] hold the values they had at the
    start. *)
Theorem run_cmake_keeps_fields w gen st :
  self (run_cmake w gen st).2 = self st
  /\ cmake_path (self (run_cmake w gen st).2) = cmake_path (self st)
  /\ cmake_flags (self (run_cmake w gen st).2) = cmake_flags (self st).
Proof.
  assert (self (run_cmake w gen st).2 = self st) as H.
  { rewrite run_cmake_eq.
    destruct (common._check_binary _ _ _); [|reflexivity].
    destruct (flag_tokens _); [|reflexivity].
    rewrite run_subprocess_eq. reflexivity. }
  rewrite H. auto.
Qed.

(** ** build_defaults, add_arguments and the constructor *)

(** C4: in the mapping that [build_defaults] returns, [cmake_path] is the
    value of [CMAKE_PATH] when that is set and non-empty, exactly as given
    and whether or not such a file exists; otherwise the first [cmake] on
    the search path; otherwise [None]. [cmake_flags] is the value of
    [CMAKE_FLAGS] when set, and [None] otherwise. *)
Theorem build_defaults_cmake w base :
  build_defaults w base !! "cmake_path"
  = Some match os.environ w !! "CMAKE_PATH" with
         | Some (String c s) => PStr (String c s)
         | _ => match os.search_path w "cmake" with
                | Some f => PStr f
                | None => PNone
                end
         end
  /\ build_defaults w base !! "cmake_flags"
     = Some match os.environ w !! "CMAKE_FLAGS" with
            | Some s => PStr s
            | None => PNone
            end.
Proof.
  split.
  - rewrite defaults_facts.lookup_cmake_path.
    unfold os.getenv, os.find_executable, or_.
    destruct (os.environ w !! "CMAKE_PATH") as [[|c s]|]; reflexivity.
  - rewrite defaults_facts.lookup_cmake_flags. reflexivity.
Qed.

(** C8: [add_arguments] registers, after the options of the base class,
    exactly two options on the parser: [-c] / [--cmake_path] bound to
    [cmake_path] and [-F] / [--cmake_flags] bound to [cmake_flags], each
    with the default that [build_defaults] gives for its key. It returns
    the parser with the registrations and no parse result. *)
Theorem add_arguments_registers w base p p' :
  add_arguments w base p = (Ok tt, p') ->
  exists p0 path flags,
    common.add_arguments base p = (Ok tt, p0)
    /\ build_defaults w base !! "cmake_path" = Some path
    /\ build_defaults w base !! "cmake_flags" = Some flags
    /\ p' = p0 ++
            [argparse.Action ["-c"; "--cmake_path"] "Path to CMake binary"
               "cmake_path" path;
             argparse.Action ["-F"; "--cmake_flags"]
               "Flags to use to override CMake flags" "cmake_flags" flags].
Proof.
  unfold add_arguments, mbind, M_bind, bind, lift.
  destruct (common.add_arguments base p) as [[[]|e] p0]; [|discriminate].
  unfold getitem, _CMAKE_PATH, _CMAKE_FLAGS.
  rewrite defaults_facts.lookup_cmake_path, defaults_facts.lookup_cmake_flags.
  unfold argparse.add_argument.
  destruct (existsb _ _); [discriminate|].
  destruct (existsb _ _); [discriminate|].
  intros [= <-]. eexists p0, _, _.
  split; [reflexivity|].
  repeat (split; [reflexivity|]).
  rewrite <- app_assoc. reflexivity.
Qed.

Lemma add_arguments_registers_witness :
  add_arguments sample.w sample.base
    [argparse.Action ["-h"; "--help"] "show this help message and exit"
       "help" PNone]
  = (Ok tt,
     [argparse.Action ["-h"; "--help"] "show this help message and exit"
        "help" PNone;
      argparse.Action ["-c"; "--cmake_path"] "Path to CMake binary"
        "cmake_path" (PStr "/opt/cmake/bin/cmake");
      argparse.Action ["-F"; "--cmake_flags"]
        "Flags to use to override CMake flags" "cmake_flags" PNone])
  /\ exists p0 path flags,
       common.add_arguments sample.base
         [argparse.Action ["-h"; "--help"] "show this help message and exit"
            "help" PNone]
       = (Ok tt, p0)
       /\ build_defaults sample.w sample.base !! "cmake_path" = Some path
       /\ build_defaults sample.w sample.base !! "cmake_flags" = Some flags
       /\ [argparse.Action ["-h"; "--help"] "show this help message and exit"
             "help" PNone;
           argparse.Action ["-c"; "--cmake_path"] "Path to CMake binary"
             "cmake_path" (PStr "/opt/cmake/bin/cmake");
           argparse.Action ["-F"; "--cmake_flags"]
             "Flags to use to override CMake flags" "cmake_flags" PNone]
          = p0 ++
            [argparse.Action ["-c"; "--cmake_path"] "Path to CMake binary"
               "cmake_path" path;
             argparse.Action ["-F"; "--cmake_flags"]
               "Flags to use to override CMake flags" "cmake_flags" flags].
Proof.
  assert (add_arguments sample.w sample.base
            [argparse.Action ["-h"; "--help"]
               "show this help message and exit" "help" PNone]
          = (Ok tt,
             [argparse.Action ["-h"; "--help"]
                "show this help message and exit" "help" PNone;
              argparse.Action ["-c"; "--cmake_path"] "Path to CMake binary"
                "cmake_path" (PStr "/opt/cmake/bin/cmake");
              argparse.Action ["-F"; "--cmake_flags"]
                "Flags to use to override CMake flags" "cmake_flags" PNone]))
    as H by (vm_compute; reflexivity).
  split; [exact H|].
  exact (add_arguments_registers _ _ _ _ H).
Defined.

(** C7: the constructor takes a dict and an object with attributes alike:
    when the mapping form has entries for [cmake_path] and [cmake_flags]
    (and the base initializer accepts the arguments), both fields are
    initialized from those entries, so that a dict and an object with the
    same entries give the same field values. *)
Theorem init_accepts_both_forms base d path flags :
  d !! "cmake_path" = Some path ->
  d !! "cmake_flags" = Some flags ->
  (forall a super,
      a = ArgDict d \/ a = ArgObject d ->
      common.__init__ base a = Ok super ->
      __init__ base a = Ok (Build super path flags))
  /\ (forall e1 e2,
         __init__ base (ArgDict d) = Ok e1 ->
         __init__ base (ArgObject d) = Ok e2 ->
         cmake_path e1 = cmake_path e2 /\ cmake_flags e1 = cmake_flags e2).
Proof.
  intros Hp Hf.
  assert (forall a super,
             a = ArgDict d \/ a = ArgObject d ->
             common.__init__ base a = Ok super ->
             __init__ base a = Ok (Build super path flags)) as H.
  { intros a super Ha Hs. unfold __init__. rewrite Hs.
    destruct Ha as [-> | ->]; cbn; unfold getitem, _CMAKE_PATH, _CMAKE_FLAGS;
      rewrite Hp, Hf; reflexivity. }
  split; [exact H|].
  intros e1 e2 H1 H2.
  destruct (common.__init__ base (ArgDict d)) as [s1|] eqn:B1;
    [|unfold __init__ in H1; rewrite B1 in H1; discriminate].
  destruct (common.__init__ base (ArgObject d)) as [s2|] eqn:B2;
    [|unfold __init__ in H2; rewrite B2 in H2; discriminate].
  rewrite (H _ _ (or_introl eq_refl) B1) in H1.
  rewrite (H _ _ (or_intror eq_refl) B2) in H2.
  injection H1 as <-. injection H2 as <-. split; reflexivity.
Qed.

Lemma init_accepts_both_forms_witness :
  sample.args !! "cmake_path" = Some (PStr "/usr/bin/cmake")
  /\ sample.args !! "cmake_flags" = Some PNone
  /\ __init__ sample.base (ArgDict sample.args)
     = Ok (sample.env (PStr "/usr/bin/cmake") PNone)
  /\ __init__ sample.base (ArgObject sample.args)
     = Ok (sample.env (PStr "/usr/bin/cmake") PNone).
Proof.
  split; [reflexivity|]. split; [reflexivity|]. split.
  - apply (proj1 (init_accepts_both_forms sample.base sample.args
                    (PStr "/usr/bin/cmake") PNone eq_refl eq_refl));
      [left|]; reflexivity.
  - apply (proj1 (init_accepts_both_forms sample.base sample.args
                    (PStr "/usr/bin/cmake") PNone eq_refl eq_refl));
      [right|]; reflexivity.
Defined.

(** C10: the constructor substitutes no default: when the mapping form of
    the arguments lacks [cmake_path] or [cmake_flags], no object is
    constructed, and once the base initializer has accepted the arguments
    the failure is the [KeyError] of the first missing key. *)
Theorem init_missing_key base a d :
  a = ArgDict d \/ a = ArgObject d ->
  d !! "cmake_path" = None \/ d !! "cmake_flags" = None ->
  (forall env, __init__ base a <> Ok env)
  /\ (forall super,
         common.__init__ base a = Ok super ->
         __init__ base a
         = Raise (KeyError match d !! "cmake_path" with
                           | Some _ => "cmake_flags"
                           | None => "cmake_path"
                           end)).
Proof.
  intros Ha Hd.
  assert (forall super,
             common.__init__ base a = Ok super ->
             __init__ base a
             = Raise (KeyError match d !! "cmake_path" with
                               | Some _ => "cmake_flags"
                               | None => "cmake_path"
                               end)) as H.
  { intros super Hs. unfold __init__. rewrite Hs.
    destruct Ha as [-> | ->]; cbn; unfold getitem, _CMAKE_PATH, _CMAKE_FLAGS;
      destruct (d !! "cmake_path"); cbn; try reflexivity;
      destruct Hd as [Hd | Hd]; try discriminate; rewrite Hd; reflexivity. }
  split; [|exact H].
  intros env He.
  destruct (common.__init__ base a) as [super|e] eqn:B.
  - rewrite (H _ eq_refl) in He. discriminate.
  - unfold __init__ in He. rewrite B in He. discriminate.
Qed.

Lemma init_missing_key_witness :
  ({[ "cmake_path" := PStr "/usr/bin/cmake" ]} : dict) !! "cmake_flags" = None
  /\ __init__ sample.base
       (ArgObject {[ "cmake_path" := PStr "/usr/bin/cmake" ]})
     = Raise (KeyError "cmake_flags").
Proof.
  split; [reflexivity|].
  apply (proj2 (init_missing_key sample.base
                  (ArgObject {[ "cmake_path" := PStr "/usr/bin/cmake" ]})
                  {[ "cmake_path" := PStr "/usr/bin/cmake" ]}
                  (or_intror eq_refl) ltac:(right; reflexivity))
               (common.Build (PStr "/src/project") true)).
  reflexivity.
Defined.

End Claims.

(** * Further properties

    What the four functions do beyond the claims above: the failures of
    [run_cmake] and what they leave behind, how [cmake_flags] reaches the
    argument vector in the two modes of the lexer, and how
    [build_defaults], the constructor, [add_arguments] and [run_cmake]
    compose. *)

(** ** More on the lexer *)

Module quoting_facts.
Import shlex shlex_facts.

(** No character of [s] is [q]. *)
Definition free_of (q : ascii) (s : string) : bool :=
  forallb (fun c => negb (c =? q)%char) (String.list_ascii_of_string s).

Lemma append_cons a (tok s : string) :
  String a tok +:+ s = String a (tok +:+ s).
Proof. reflexivity. Qed.

Lemma append_add_char tok c s : add_char tok c +:+ s = tok +:+ String c s.
Proof.
  unfold add_char. induction tok as [|a tok IH]; [reflexivity|].
  rewrite !append_cons, IH. reflexivity.
Qed.

Lemma append_empty_r (tok : string) : tok +:+ "" = tok.
Proof.
  induction tok as [|a tok IH]; [reflexivity|].
  rewrite append_cons, IH. reflexivity.
Qed.

Lemma whitespace_is_plain c : in_whitespace c = true -> plain c = true.
Proof.
  unfold in_whitespace. rewrite !orb_true_iff, !Ascii.eqb_eq.
  intros [[[-> | ->] | ->] | ->]; reflexivity.
Qed.

Lemma words_whitespace ins :
  forallb in_whitespace ins = true -> words "" ins = [].
Proof.
  induction ins as [|c ins IH]; cbn; [reflexivity|].
  intros [Hc Hi]%andb_prop. rewrite Hc. cbn. auto.
Qed.

Lemma forallb_whitespace_plain ins :
  forallb in_whitespace ins = true -> forallb plain ins = true.
Proof.
  induction ins as [|c ins IH]; cbn; [reflexivity|].
  intros [Hc Hi]%andb_prop. rewrite (whitespace_is_plain _ Hc). cbn. auto.
Qed.

(** Flags that hold whitespace only give no token. *)
Lemma split_whitespace s posix :
  forallb in_whitespace (String.list_ascii_of_string s) = true ->
  split s posix = Ok [].
Proof.
  intros H. rewrite split_plain by (apply forallb_whitespace_plain, H).
  rewrite words_whitespace by exact H. reflexivity.
Qed.

(** Inside single quotes in POSIX mode: every character up to the closing
    quote is taken as it is, the quote is dropped, and the word goes on to
    the end of the input. *)
Lemma read_loop_single_quoted_posix s : forall tok q es,
  free_of "'" s = true ->
  read_loop true (Frame (StQuote "'") tok q es)
            (String.list_ascii_of_string (s +:+ "'"))
  = Ok (Frame StEOF (tok +:+ s) true es, []).
Proof.
  induction s as [|c s IH]; intros tok q es H.
  - rewrite append_empty_r. reflexivity.
  - unfold free_of in H. cbn in H. apply andb_prop in H as [Hc Hs].
    apply negb_true_iff in Hc.
    rewrite append_cons. cbn [String.list_ascii_of_string read_loop].
    unfold on_char. cbn [state token quoted escapedstate].
    rewrite Hc. cbn [negb].
    replace (true && in_escape c && in_escapedquotes "'") with false
      by (rewrite andb_false_r; reflexivity).
    rewrite IH by exact Hs. rewrite append_add_char. reflexivity.
Qed.

(** Inside single quotes in non-POSIX mode: the token ends with the closing
    quote, which stays part of it. *)
Lemma read_loop_single_quoted_non_posix s : forall tok q es,
  free_of "'" s = true ->
  read_loop false (Frame (StQuote "'") tok q es)
            (String.list_ascii_of_string (s +:+ "'"))
  = Ok (Frame StSpace (tok +:+ (s +:+ "'")) true es, []).
Proof.
  induction s as [|c s IH]; intros tok q es H.
  - reflexivity.
  - unfold free_of in H. cbn in H. apply andb_prop in H as [Hc Hs].
    apply negb_true_iff in Hc.
    rewrite append_cons. cbn [String.list_ascii_of_string read_loop].
    unfold on_char. cbn [state token quoted escapedstate].
    rewrite Hc. cbn [negb andb].
    rewrite IH by exact Hs. rewrite append_add_char. reflexivity.
Qed.

Lemma split_single_quoted_posix s :
  free_of "'" s = true ->
  split (String "'" (s +:+ "'")) true = Ok [PStr s].
Proof.
  intros H. unfold split, new. rewrite tokens_unfold.
  unfold next, read_token.
  cbn [instream posix lstate ltoken String.list_ascii_of_string read_loop].
  change (on_char true (Frame StSpace "" false StSpace) "'")
    with (Frame (StQuote "'") "" false StSpace, Continue).
  cbn iota. rewrite read_loop_single_quoted_posix by exact H.
  cbn. change ("" +:+ s) with s.
  destruct (decide (PStr s = PNone)) as [E|_]; [discriminate E|].
  rewrite tokens_at_eof. reflexivity.
Qed.

Lemma split_single_quoted_non_posix s :
  free_of "'" s = true ->
  split (String "'" (s +:+ "'")) false = Ok [PStr (String "'" (s +:+ "'"))].
Proof.
  intros H. unfold split, new. rewrite tokens_unfold.
  unfold next, read_token.
  cbn [instream posix lstate ltoken String.list_ascii_of_string read_loop].
  change (on_char false (Frame StSpace "" false StSpace) "'")
    with (Frame (StQuote "'") "'" false StSpace, Continue).
  cbn iota. rewrite read_loop_single_quoted_non_posix by exact H.
  cbn. rewrite append_cons. change ("" +:+ (s +:+ "'")) with (s +:+ "'").
  destruct (decide (PStr (String "'" (s +:+ "'")) = PStr "")) as [E|_];
    [discriminate E|].
  rewrite tokens_unfold. reflexivity.
Qed.

End quoting_facts.

(** *** Non-POSIX mode keeps every character that is not whitespace

    Without POSIX rules the lexer strips no quote and no backslash: the
    tokens, put end to end, are the input without its separating
    whitespace. *)

Module non_posix_facts.
Import shlex shlex_facts quoting_facts.

(** The characters of [l] that are not whitespace. *)
Definition solid (l : list ascii) : list ascii :=
  List.filter (fun c => negb (in_whitespace c)) l.

Definition chars_of (tok : value) : list ascii :=
  match tok with
  | PStr s => String.list_ascii_of_string s
  | _ => []
  end.

(** The characters of a list of tokens, in order. *)
Definition characters (toks : list value) : list ascii :=
  concat (map chars_of toks).

(** The frames the loop passes through in non-POSIX mode: between tokens
    nothing has been collected, and there is no escape state. *)
Definition settled (f : frame) : Prop :=
  match state f with
  | StSpace => token f = ""
  | StWord | StQuote _ => True
  | StEOF | StEscape _ => False
  end.

Lemma list_ascii_add_char tok c :
  String.list_ascii_of_string (add_char tok c)
  = String.list_ascii_of_string tok ++ [c].
Proof.
  unfold add_char. induction tok as [|a tok IH]; [reflexivity|].
  rewrite append_cons. cbn. rewrite IH. reflexivity.
Qed.

Lemma solid_app l1 l2 : solid (l1 ++ l2) = solid l1 ++ solid l2.
Proof. apply List.filter_app. Qed.

Lemma solid_snoc_whitespace l c :
  in_whitespace c = true -> solid (l ++ [c]) = solid l.
Proof.
  intros H. rewrite solid_app. unfold solid at 2. cbn. rewrite H. cbn.
  apply app_nil_r.
Qed.

Lemma nonempty_false tok : nonempty tok = false -> tok = "".
Proof. destruct tok; [reflexivity | discriminate]. Qed.

Lemma on_char_non_posix f c f' k :
  settled f ->
  on_char false f c = (f', k) ->
  solid (String.list_ascii_of_string (token f'))
  = solid (String.list_ascii_of_string (token f) ++ [c])
  /\ match k with
     | Continue => settled f'
     | Break => state f' = StSpace /\ nonempty (token f') = true
     end.
Proof.
  destruct f as [st tok q es]. unfold settled, on_char.
  cbn [state token quoted escapedstate].
  destruct st as [| | |qc|e]; [intros [] | | | | intros []].
  - intros ->. destruct (in_whitespace c) eqn:W.
    + intros [= <- <-]. cbn. unfold solid. cbn. rewrite W. cbn. auto.
    + cbn [andb negb].
      destruct (in_wordchars false c); [|destruct (in_quotes c)];
        intros [= <- <-]; cbn; auto.
  - intros _. destruct (in_whitespace c) eqn:W.
    + unfold emit_or_continue. cbn [token quoted andb].
      rewrite orb_false_r.
      destruct (nonempty tok) eqn:N; intros [= <- <-];
        cbn [state token]; rewrite solid_snoc_whitespace by exact W;
        [auto | split; [reflexivity | apply nonempty_false, N]].
    + cbn [andb]. intros [= <- <-]. cbn [state token].
      rewrite list_ascii_add_char. auto.
  - intros _. destruct (c =? qc)%char.
    + cbn [negb]. intros [= <- <-]. cbn [state token].
      rewrite list_ascii_add_char. split; [reflexivity|].
      split; [reflexivity | apply nonempty_add_char].
    + cbn [andb]. intros [= <- <-]. cbn [state token].
      rewrite list_ascii_add_char. auto.
Qed.

Lemma read_loop_non_posix ins : forall f f' rest,
  settled f ->
  read_loop false f ins = Ok (f', rest) ->
  solid (String.list_ascii_of_string (token f')) ++ solid rest
  = solid (String.list_ascii_of_string (token f)) ++ solid ins
  /\ ((state f' = StSpace /\ nonempty (token f') = true)
      \/ (state f' = StEOF /\ rest = [])).
Proof.
  induction ins as [|c ins IH]; intros f f' rest S.
  - destruct f as [st tok q es]. unfold settled in S. cbn in S.
    destruct st; try destruct S; cbn; try discriminate;
      intros [= <- <-]; cbn; auto.
  - cbn [read_loop]. destruct (on_char false f c) as [f1 k] eqn:E.
    destruct (on_char_non_posix _ _ _ _ S E) as [H1 H2].
    rewrite solid_app in H1.
    assert (solid (c :: ins) = solid [c] ++ solid ins) as Hc
      by (apply (solid_app [c] ins)).
    destruct k.
    + intros H. destruct (IH _ _ _ H2 H) as [H3 H4]. split; [|exact H4].
      rewrite H3, H1, Hc, app_assoc. reflexivity.
    + intros [= <- <-]. split; [|left; exact H2].
      rewrite H1, Hc, app_assoc. reflexivity.
Qed.

(** Where the iteration stands between two tokens. *)
Definition between (st : lexstate) (ins : list ascii) : Prop :=
  st = StSpace \/ (st = StEOF /\ ins = []).

Lemma next_non_posix ins st :
  between st ins ->
  match next (Lexer ins false st "") with
  | Ok None => solid ins = []
  | Ok (Some (tok, lx')) =>
      exists t rest st',
        tok = PStr t /\ t <> ""
        /\ lx' = Lexer rest false st' "" /\ between st' rest
        /\ solid (String.list_ascii_of_string t) ++ solid rest = solid ins
  | Raise _ => True
  end.
Proof.
  intros [-> | [-> ->]]; [|reflexivity].
  unfold next, read_token. cbn [instream posix lstate ltoken].
  destruct (read_loop false (Frame StSpace "" false StSpace) ins)
    as [[f rest]|e] eqn:E; [|exact I].
  destruct (read_loop_non_posix ins (Frame StSpace "" false StSpace) f rest
              eq_refl E) as [H1 H2].
  cbn [token] in H1. cbn. destruct (decide _) as [D|D].
  - injection D as D. rewrite D in H1, H2. cbn in H1.
    destruct H2 as [[_ H2] | [_ ->]]; [discriminate H2|].
    rewrite <- H1. reflexivity.
  - exists (token f), rest, (state f).
    split; [reflexivity|]. split; [congruence|]. split; [reflexivity|].
    split; [|exact H1].
    destruct H2 as [[H2 _] | [H2 H3]]; [left | right]; auto.
Qed.

Lemma tokens_non_posix lx : forall toks,
  posix lx = false -> ltoken lx = "" -> between (lstate lx) (instream lx) ->
  tokens lx = Ok toks ->
  solid (characters toks) = solid (instream lx)
  /\ Forall (fun tok => tok <> PStr "") toks.
Proof.
  remember (remaining lx) as n eqn:Hn. revert lx Hn.
  induction n as [n IH] using lt_wf_ind. intros [ins px st tk] -> toks.
  cbn [posix ltoken lstate instream]. intros -> -> B.
  rewrite tokens_unfold. pose proof (next_non_posix ins st B) as N.
  destruct (next (Lexer ins false st "")) as [[[tok lx']|]|e] eqn:E.
  - destruct N as (t & rest & st' & -> & Ht & -> & B' & H).
    destruct (tokens (Lexer rest false st' "")) as [toks'|e'] eqn:T;
      cbn; [|discriminate].
    intros [= <-].
    destruct (IH _ (next_remaining _ _ _ E) _ eq_refl toks'
                eq_refl eq_refl B' T) as [H1 H2].
    cbn [instream] in H1. split.
    + unfold characters. cbn [map concat chars_of].
      rewrite solid_app. fold (characters toks'). rewrite H1. exact H.
    + constructor; [congruence | exact H2].
  - intros [= <-]. split; [symmetry; exact N | constructor].
  - discriminate.
Qed.

(** [shlex.split] without POSIX rules: no token is empty, and the tokens
    hold the characters of the input that are not whitespace, in order. *)
Lemma split_non_posix s toks :
  split s false = Ok toks ->
  solid (characters toks) = solid (String.list_ascii_of_string s)
  /\ Forall (fun tok => tok <> PStr "") toks.
Proof.
  intros H. apply (tokens_non_posix (new s false)); auto.
  left. reflexivity.
Qed.

End non_posix_facts.

(** *** The lexer makes up no character

    In both modes the tokens, put end to end, are a subsequence of the
    input: characters are dropped (whitespace, and with POSIX rules quotes
    and escapes), never added and never reordered. *)

Module subsequence_facts.
Import shlex shlex_facts quoting_facts non_posix_facts.

(** The escape character that was read and is not part of the token yet. *)
Definition pending (st : lexstate) : list ascii :=
  match st with
  | StEscape e => [e]
  | _ => []
  end.

(** What a frame holds of the input read so far. *)
Definition collected (f : frame) : list ascii :=
  String.list_ascii_of_string (token f) ++ pending (state f).

Lemma sublist_tail (l x y : list ascii) :
  x `sublist_of` y -> l ++ x `sublist_of` l ++ y.
Proof. intros H. apply sublist_app; [reflexivity | exact H]. Qed.

Ltac subsequence :=
  unfold collected; cbn [state token pending];
  rewrite ?list_ascii_add_char, <- ?app_assoc; cbn [app];
  first [ apply sublist_tail; repeat constructor
        | apply sublist_inserts_l; repeat constructor
        | apply sublist_nil_l ].

Lemma on_char_sublist posix f c f' k :
  pending (escapedstate f) = [] ->
  on_char posix f c = (f', k) ->
  collected f' `sublist_of` collected f ++ [c]
  /\ pending (escapedstate f') = []
  /\ (k = Break -> pending (state f') = []).
Proof.
  destruct f as [st tok q es]. unfold on_char.
  cbn [state token quoted escapedstate]. intros E.
  assert (forall g : frame * control,
             collected g.1 `sublist_of` (String.list_ascii_of_string tok
                                         ++ pending st) ++ [c] ->
             pending (escapedstate g.1) = [] ->
             (g.2 = Break -> pending (state g.1) = []) ->
             g = (f', k) ->
             collected f' `sublist_of` collected
                 (Frame st tok q es) ++ [c]
             /\ pending (escapedstate f') = []
             /\ (k = Break -> pending (state f') = [])) as Close
    by (intros [g1 g2] H1 H2 H3 [= <- <-]; auto).
  destruct st as [| | |qc|e].
  - apply Close; cbn [fst snd]; [subsequence | exact E | reflexivity].
  - destruct (in_whitespace c);
      [|destruct (posix && in_escape c);
        [|destruct (in_wordchars posix c);
          [|destruct (in_quotes c); [destruct posix|]]]];
      apply Close; cbn [fst snd];
      first [subsequence | exact E | reflexivity | discriminate].
  - destruct (in_whitespace c);
      [|destruct (posix && in_quotes c); [|destruct (posix && in_escape c)]];
      apply Close; cbn [fst snd];
      first [subsequence | exact E | reflexivity | discriminate].
  - destruct (c =? qc)%char;
      [destruct posix
      |destruct (posix && in_escape c && in_escapedquotes qc)];
      cbn [negb]; apply Close; cbn [fst snd];
      first [subsequence | exact E | reflexivity | discriminate].
  - apply Close; cbn [fst snd]; [|exact E | discriminate].
    unfold collected. cbn [state token]. rewrite E, app_nil_r.
    destruct (_ && _); subsequence.
Qed.

Lemma read_loop_sublist posix ins : forall f f' rest,
  pending (escapedstate f) = [] ->
  read_loop posix f ins = Ok (f', rest) ->
  exists used,
    ins = used ++ rest
    /\ String.list_ascii_of_string (token f') `sublist_of` collected f ++ used
    /\ pending (state f') = [].
Proof.
  induction ins as [|c ins IH]; intros f f' rest E.
  - destruct f as [st tok q es]. cbn.
    destruct st; cbn; try discriminate; intros [= <- <-]; exists [];
      (split; [reflexivity|]); (split; [|reflexivity]);
      unfold collected; cbn [state token pending];
      first [apply sublist_nil_l | rewrite !app_nil_r; reflexivity].
  - cbn [read_loop]. destruct (on_char posix f c) as [f1 k] eqn:C.
    destruct (on_char_sublist _ _ _ _ _ E C) as (H1 & H2 & H3).
    destruct k.
    + intros H. destruct (IH _ _ _ H2 H) as (used & -> & H4 & H5).
      exists (c :: used). split; [reflexivity|]. split; [|exact H5].
      etransitivity; [exact H4|].
      change (c :: used) with ([c] ++ used). rewrite app_assoc.
      apply sublist_app; [exact H1 | reflexivity].
    + intros [= <- <-]. exists [c]. split; [reflexivity|].
      specialize (H3 eq_refl). split; [|exact H3].
      unfold collected in H1 at 1. rewrite H3, app_nil_r in H1. exact H1.
Qed.

(** A step of the iteration, taken apart. *)
Lemma next_inv lx tok lx' :
  next lx = Ok (Some (tok, lx')) ->
  exists f rest,
    read_loop (posix lx) (Frame (lstate lx) (ltoken lx) false StSpace)
              (instream lx) = Ok (f, rest)
    /\ tok = PStr (token f)
    /\ lx' = Lexer rest (posix lx) (state f) "".
Proof.
  unfold next, read_token.
  destruct (read_loop _ _ _) as [[f rest]|e]; cbn; [|discriminate].
  intros H. exists f, rest. split; [reflexivity|].
  destruct (posix lx); cbn in H;
    [destruct (negb (quoted f) && negb (nonempty (token f))); cbn in H|];
    destruct (decide _); try discriminate; injection H as <- <-; auto.
  congruence.
Qed.

Lemma tokens_sublist lx : forall toks,
  pending (lstate lx) = [] ->
  tokens lx = Ok toks ->
  characters toks
    `sublist_of` String.list_ascii_of_string (ltoken lx) ++ instream lx.
Proof.
  remember (remaining lx) as n eqn:Hn. revert lx Hn.
  induction n as [n IH] using lt_wf_ind. intros lx -> toks P.
  rewrite tokens_unfold.
  destruct (next lx) as [[[tok lx']|]|e] eqn:E; [| |discriminate].
  - destruct (next_inv _ _ _ E) as (f & rest & R & -> & ->).
    destruct (tokens _) as [toks'|e'] eqn:T; cbn; [|discriminate].
    intros [= <-].
    destruct (read_loop_sublist (posix lx) (instream lx)
                (Frame (lstate lx) (ltoken lx) false StSpace) f rest
                eq_refl R) as (used & U & H1 & H2).
    pose proof (IH _ (next_remaining _ _ _ E) _ eq_refl toks' H2 T) as H3.
    cbn [ltoken instream String.list_ascii_of_string app] in H3.
    unfold collected in H1. cbn [state token] in H1.
    rewrite P, app_nil_r in H1.
    unfold characters. cbn [map concat chars_of]. fold (characters toks').
    rewrite U, app_assoc. apply sublist_app; assumption.
  - intros [= <-]. apply sublist_nil_l.
Qed.

(** [shlex.split] in either mode: the tokens are made of characters of the
    input, in the order of the input. *)
Lemma split_sublist s posix toks :
  split s posix = Ok toks ->
  characters toks `sublist_of` String.list_ascii_of_string s.
Proof.
  intros H. apply (tokens_sublist (new s posix)); [reflexivity | exact H].
Qed.

End subsequence_facts.

(** ** More on argparse, the defaults and the constructor *)

Module registration_facts.
Import Run linux argparse.

Lemma conflict_iff flags p :
  existsb (fun f => bool_decide (f ∈ registered p)) flags = true
  <-> Exists (fun f => f ∈ registered p) flags.
Proof.
  rewrite existsb_exists, Exists_exists.
  split; intros (f & H1 & H2); exists f.
  - split; [apply list_elem_of_In, H1 | eapply bool_decide_eq_true_1, H2].
  - split; [apply list_elem_of_In, H1 | apply bool_decide_eq_true_2, H2].
Qed.

Lemma no_conflict_iff flags p :
  existsb (fun f => bool_decide (f ∈ registered p)) flags = false
  <-> Forall (fun f => f ∉ registered p) flags.
Proof.
  rewrite <- not_true_iff_false, conflict_iff, <- Forall_Exists_neg.
  reflexivity.
Qed.

Lemma registered_app p a :
  registered (p ++ [a]) = registered p ++ option_strings a.
Proof.
  unfold registered. rewrite map_app, concat_app. cbn.
  rewrite app_nil_r. reflexivity.
Qed.

(** [add_arguments] in three steps: the base class, then the two options. *)
Lemma add_arguments_eq w base p :
  add_arguments w base p =
  match common.add_arguments base p with
  | (Raise e, p0) => (Raise e, p0)
  | (Ok _, p0) =>
      match add_argument ["-c"; "--cmake_path"] "Path to CMake binary"
              "cmake_path"
              (or_ (os.getenv w "CMAKE_PATH") (os.find_executable w "cmake"))
              p0 with
      | (Raise e, p1) => (Raise e, p1)
      | (Ok _, p1) =>
          add_argument ["-F"; "--cmake_flags"]
            "Flags to use to override CMake flags" "cmake_flags"
            (os.getenv w "CMAKE_FLAGS") p1
      end
  end.
Proof.
  unfold add_arguments, mbind, M_bind, bind, lift.
  destruct (common.add_arguments base p) as [[[]|e] p0]; [|reflexivity].
  unfold getitem, _CMAKE_PATH, _CMAKE_FLAGS.
  rewrite defaults_facts.lookup_cmake_path, defaults_facts.lookup_cmake_flags.
  reflexivity.
Qed.

(** The second option meets no conflict with the first. *)
Lemma second_option_free p a :
  option_strings a = ["-c"; "--cmake_path"] ->
  Forall (fun f => f ∉ registered (p ++ [a])) ["-F"; "--cmake_flags"]
  <-> Forall (fun f => f ∉ registered p) ["-F"; "--cmake_flags"].
Proof.
  intros Ha. rewrite registered_app, Ha. rewrite !Forall_cons, !Forall_nil.
  rewrite !not_elem_of_app, !not_elem_of_cons.
  split.
  - intros ((H1 & _) & (H2 & _) & _). auto.
  - intros (H1 & H2 & _).
    repeat split; try assumption; try discriminate; apply not_elem_of_nil.
Qed.

(** The constructor on the defaults: only the base initializer can fail. *)
Lemma init_build_defaults_eq w base :
  __init__ base (ArgDict (build_defaults w base))
  = match common.__init__ base (ArgDict (build_defaults w base)) with
    | Ok super =>
        Ok (Build super
              (or_ (os.getenv w "CMAKE_PATH") (os.find_executable w "cmake"))
              (os.getenv w "CMAKE_FLAGS"))
    | Raise e => Raise e
    end.
Proof.
  unfold __init__.
  destruct (common.__init__ base _) as [super|e]; [|reflexivity].
  unfold mbind, result_bind, Py.bind, getitem, _CMAKE_PATH, _CMAKE_FLAGS.
  cbn beta iota.
  rewrite defaults_facts.lookup_cmake_path, defaults_facts.lookup_cmake_flags.
  reflexivity.
Qed.

End registration_facts.

(** ** More on run_cmake *)

Module launch_facts.
Import Run linux run_cmake_facts.

Lemma check_binary_raises w name path e :
  common._check_binary w name path = Raise e -> e = ToolPathError name path.
Proof.
  unfold common._check_binary. destruct path; try (intros [= <-]; reflexivity).
  destruct (_ && _); [discriminate|]. intros [= <-]. reflexivity.
Qed.

(** After a passed check and a successful tokenization the subprocess is
    launched, whatever becomes of it. *)
Lemma run_cmake_launches w gen st tokens :
  common._check_binary w "cmake" (cmake_path (self st)) = Ok tt ->
  flag_tokens (self st) = Ok tokens ->
  spawned (run_cmake w gen st).2
  = spawned st ++
    [Call ([cmake_path (self st); PStr "-G"; PStr gen] ++ tokens
           ++ [project_directory (self st)])
          (project_directory (self st))].
Proof.
  intros C T. rewrite run_cmake_eq, C, T, run_subprocess_eq. reflexivity.
Qed.

(** What was launched tells the tokens. *)
Lemma run_cmake_launched w gen st tokens :
  spawned (run_cmake w gen st).2
  = spawned st ++
    [Call ([cmake_path (self st); PStr "-G"; PStr gen] ++ tokens
           ++ [project_directory (self st)])
          (project_directory (self st))] ->
  flag_tokens (self st) = Ok tokens.
Proof.
  rewrite run_cmake_eq.
  destruct (common._check_binary _ _ _) as [u|e];
    [|intros H; destruct (app_singleton_neq _ _ H)].
  destruct (flag_tokens (self st)) as [toks|e];
    [|intros H; destruct (app_singleton_neq _ _ H)].
  rewrite run_subprocess_eq. cbn [snd spawned]. unfold cmake_argv.
  intros H. apply app_inv_head in H. injection H as H.
  apply app_inv_tail in H. rewrite H. reflexivity.
Qed.

Lemma flag_tokens_string self flags :
  cmake_flags self = PStr flags ->
  flag_tokens self
  = if truthy (PStr flags) then shlex.split flags (_posix self) else Ok [].
Proof. intros H. unfold flag_tokens. rewrite H. reflexivity. Qed.

End launch_facts.

(** ** Further settings *)

Module fixture.

(** A world without [CMAKE_PATH] and without a [cmake] on the search
    path. *)
Definition bare : os.world :=
  os.World ∅ (fun _ => None) (fun _ => false) (fun _ _ => os.Exited 0).

(** A world in which [CMAKE_PATH] names a file that is not there, while a
    [cmake] is on the search path. *)
Definition shadowed : os.world :=
  os.World {[ "CMAKE_PATH" := "/opt/cmake/bin/cmake" ]}
           (fun name => if bool_decide (name = "cmake")
                        then Some "/usr/bin/cmake" else None)
           (fun p => bool_decide (p = "/usr/bin/cmake"))
           (fun _ _ => os.Exited 0).

(** A base class with a default of its own. *)
Definition base : common.base :=
  common.Base (fun _ => Ok (common.Build (PStr "/src/project") true))
              {[ "verbose" := PBool false ]}
              (fun p => (Ok tt, p)).

(** A build environment whose lexer runs without POSIX rules. *)
Definition non_posix (path flags : value)
  : Run.state linux.BuildEnvironment :=
  Run.State (linux.Build (common.Build (PStr "/src/project") false)
                         path flags) [].

(** A parser on which [-F] is taken. *)
Definition taken : argparse.parser :=
  [argparse.Action ["-F"; "--force"] "Overwrite existing files" "force"
     (PBool false)].

End fixture.

(** ** Properties beyond the claims *)

Section Extras.
Import Run linux run_cmake_facts launch_facts.
Import shlex_facts quoting_facts non_posix_facts subsequence_facts.
Import registration_facts.

(** *** run_cmake: failures and launches *)

(** X1: the exceptions of [run_cmake]. Besides the documented
    [ToolPathError] and [SubCommandError] it lets the lexer's [ValueError]
    (flags with an open quote or a dangling escape) and the
    [AttributeError] of flags that are not a string escape. The first
    three are raised before anything is launched and leave the state as it
    was; [SubCommandError] is raised after exactly one launch. *)
Theorem run_cmake_exceptions w gen st e :
  (run_cmake w gen st).1 = Raise e ->
  ((e = ToolPathError "cmake" (cmake_path (self st))
    \/ (exists msg, e = ValueError msg)
    \/ (exists msg, e = AttributeError msg))
   /\ (run_cmake w gen st).2 = st)
  \/ ((exists argv rc, e = SubCommandError argv rc)
      /\ exists c, spawned (run_cmake w gen st).2 = spawned st ++ [c]).
Proof.
  rewrite run_cmake_eq.
  destruct (common._check_binary _ _ _) as [u|e1] eqn:C.
  - destruct (flag_tokens (self st)) as [tokens|e2] eqn:T.
    + rewrite run_subprocess_eq. cbn [fst snd spawned].
      intros H. right. split; [|eauto].
      destruct (os.run _ _ _) as [|rc]; [injection H as <-; eauto|].
      destruct (rc =? 0)%Z; [discriminate|]. injection H as <-. eauto.
    + cbn [fst snd]. intros [= <-]. left. split; [|reflexivity].
      right. apply flag_tokens_raises in T. exact T.
  - cbn [fst snd]. intros [= <-]. left. split; [|reflexivity].
    left. eapply check_binary_raises, C.
Qed.

Lemma run_cmake_exceptions_witness :
  (run_cmake sample.w "Unix Makefiles"
     (sample.start (PStr "/usr/bin/cmake") (PStr "-DNAME='a b"))).1
  = Raise (ValueError "No closing quotation")
  /\ (((ValueError "No closing quotation"
        = ToolPathError "cmake" (PStr "/usr/bin/cmake")
        \/ (exists msg, ValueError "No closing quotation" = ValueError msg)
        \/ (exists msg,
               ValueError "No closing quotation" = AttributeError msg))
       /\ (run_cmake sample.w "Unix Makefiles"
             (sample.start (PStr "/usr/bin/cmake") (PStr "-DNAME='a b"))).2
          = sample.start (PStr "/usr/bin/cmake") (PStr "-DNAME='a b"))
      \/ ((exists argv rc,
              ValueError "No closing quotation" = SubCommandError argv rc)
          /\ exists c,
               spawned
                 (run_cmake sample.w "Unix Makefiles"
                    (sample.start (PStr "/usr/bin/cmake")
                                  (PStr "-DNAME='a b"))).2
               = [] ++ [c])).
Proof.
  split; [vm_compute; reflexivity|].
  apply (run_cmake_exceptions sample.w "Unix Makefiles"
           (sample.start (PStr "/usr/bin/cmake") (PStr "-DNAME='a b"))
           (ValueError "No closing quotation")).
  vm_compute. reflexivity.
Defined.

(** X2: whatever its outcome, [run_cmake] either fails before launching
    anything, leaving the state as it was, or launches exactly one
    subprocess: in [project_directory], with an argument vector that starts
    with [cmake_path], ["-G"], [gen], ends with [project_directory] and
    holds only strings in between. This covers the failing subprocess as
    well. *)
Theorem run_cmake_launches_at_most_once w gen st :
  (exists e, run_cmake w gen st = (Raise e, st))
  \/ (exists tokens,
         Forall (fun tok => exists s, tok = PStr s) tokens
         /\ spawned (run_cmake w gen st).2
            = spawned st ++
              [Call ([cmake_path (self st); PStr "-G"; PStr gen] ++ tokens
                     ++ [project_directory (self st)])
                    (project_directory (self st))]).
Proof.
  destruct (common._check_binary w "cmake" (cmake_path (self st)))
    as [[]|e] eqn:C.
  - destruct (flag_tokens (self st)) as [tokens|e] eqn:T.
    + right. exists tokens. split; [|apply run_cmake_launches; assumption].
      unfold flag_tokens, shlex_split in T.
      destruct (truthy _); [|injection T as <-; constructor].
      destruct (cmake_flags (self st)); try discriminate.
      eapply tokens_are_strings, T.
    + left. exists e. rewrite run_cmake_eq, C, T. reflexivity.
  - left. exists e. rewrite run_cmake_eq, C. reflexivity.
Qed.

(** X3: flags that are set but are not a string (a number, [True]) pass
    the test [if self.cmake_flags] and make [shlex.split] fail: once the
    binary check has passed, [run_cmake] raises [AttributeError] and
    launches nothing. *)
Theorem run_cmake_non_string_flags w gen st :
  truthy (cmake_flags (self st)) = true ->
  (forall s, cmake_flags (self st) <> PStr s) ->
  common._check_binary w "cmake" (cmake_path (self st)) = Ok tt ->
  exists msg, run_cmake w gen st = (Raise (AttributeError msg), st).
Proof.
  intros T N C. rewrite run_cmake_eq, C. unfold flag_tokens. rewrite T.
  unfold shlex_split. destruct (cmake_flags (self st)) as [|b|n|s]; eauto.
  destruct (N s eq_refl).
Qed.

Lemma run_cmake_non_string_flags_witness :
  truthy (PInt 8) = true
  /\ (forall s, PInt 8 <> PStr s)
  /\ common._check_binary sample.w "cmake" (PStr "/usr/bin/cmake") = Ok tt
  /\ exists msg,
       run_cmake sample.w "Unix Makefiles"
         (sample.start (PStr "/usr/bin/cmake") (PInt 8))
       = (Raise (AttributeError msg),
          sample.start (PStr "/usr/bin/cmake") (PInt 8)).
Proof.
  split; [reflexivity|]. split; [discriminate|]. split; [reflexivity|].
  apply (run_cmake_non_string_flags sample.w "Unix Makefiles"
           (sample.start (PStr "/usr/bin/cmake") (PInt 8)));
    [reflexivity | discriminate | reflexivity].
Defined.

(** *** run_cmake: how the flags reach the argument vector *)

(** X4: flags without quotes and backslashes are split at whitespace and
    nothing else, in the same way in both modes of the lexer: the argument
    vector does not depend on [_posix]. *)
Theorem run_cmake_plain_flags w gen st flags :
  cmake_flags (self st) = PStr flags ->
  forallb plain (String.list_ascii_of_string flags) = true ->
  common._check_binary w "cmake" (cmake_path (self st)) = Ok tt ->
  spawned (run_cmake w gen st).2
  = spawned st ++
    [Call ([cmake_path (self st); PStr "-G"; PStr gen]
           ++ map PStr (words "" (String.list_ascii_of_string flags))
           ++ [project_directory (self st)])
          (project_directory (self st))].
Proof.
  intros F P C. apply run_cmake_launches; [exact C|].
  rewrite (flag_tokens_string _ _ F).
  destruct flags as [|c s]; [reflexivity|].
  cbn [truthy]. apply split_plain, P.
Qed.

Lemma run_cmake_plain_flags_witness :
  forallb plain (String.list_ascii_of_string "-DFOO=1   -Wno-dev ") = true
  /\ common._check_binary sample.w "cmake" (PStr "/usr/bin/cmake") = Ok tt
  /\ spawned (run_cmake sample.w "Unix Makefiles"
                (fixture.non_posix (PStr "/usr/bin/cmake")
                                   (PStr "-DFOO=1   -Wno-dev "))).2
     = [] ++
       [Call ([PStr "/usr/bin/cmake"; PStr "-G"; PStr "Unix Makefiles"]
              ++ map PStr
                   (words "" (String.list_ascii_of_string
                                "-DFOO=1   -Wno-dev "))
              ++ [PStr "/src/project"])
             (PStr "/src/project")]
  /\ words "" (String.list_ascii_of_string "-DFOO=1   -Wno-dev ")
     = ["-DFOO=1"; "-Wno-dev"].
Proof.
  split; [reflexivity|]. split; [reflexivity|]. split; [|reflexivity].
  exact (run_cmake_plain_flags sample.w "Unix Makefiles"
           (fixture.non_posix (PStr "/usr/bin/cmake")
                              (PStr "-DFOO=1   -Wno-dev "))
           "-DFOO=1   -Wno-dev " eq_refl eq_refl eq_refl).
Defined.

(** X5: flags that hold whitespace only are set and non-empty, yet they
    add no argument: the argument vector is the one of unset flags. *)
Theorem run_cmake_blank_flags w gen st flags :
  cmake_flags (self st) = PStr flags ->
  forallb shlex.in_whitespace (String.list_ascii_of_string flags) = true ->
  common._check_binary w "cmake" (cmake_path (self st)) = Ok tt ->
  spawned (run_cmake w gen st).2
  = spawned st ++
    [Call [cmake_path (self st); PStr "-G"; PStr gen;
           project_directory (self st)]
          (project_directory (self st))].
Proof.
  intros F B C.
  rewrite (run_cmake_launches w gen st [] C); [reflexivity|].
  rewrite (flag_tokens_string _ _ F).
  destruct (truthy (PStr flags)); [|reflexivity].
  apply split_whitespace, B.
Qed.

Lemma run_cmake_blank_flags_witness :
  forallb shlex.in_whitespace (String.list_ascii_of_string "   ") = true
  /\ common._check_binary sample.w "cmake" (PStr "/usr/bin/cmake") = Ok tt
  /\ spawned (run_cmake sample.w "Ninja"
                (sample.start (PStr "/usr/bin/cmake") (PStr "   "))).2
     = [] ++
       [Call [PStr "/usr/bin/cmake"; PStr "-G"; PStr "Ninja";
              PStr "/src/project"]
             (PStr "/src/project")].
Proof.
  split; [reflexivity|]. split; [reflexivity|].
  exact (run_cmake_blank_flags sample.w "Ninja"
           (sample.start (PStr "/usr/bin/cmake") (PStr "   "))
           "   " eq_refl eq_refl eq_refl).
Defined.

(** X6: flags that are one single-quoted string (with no single quote
    inside; blanks, double quotes and backslashes are allowed) give one
    argument in both modes: with POSIX rules it is the text between the
    quotes, without them the quotes stay part of the argument. *)
Theorem run_cmake_single_quoted_flags w gen st s :
  cmake_flags (self st) = PStr (String "'" (s +:+ "'")) ->
  free_of "'" s = true ->
  common._check_binary w "cmake" (cmake_path (self st)) = Ok tt ->
  spawned (run_cmake w gen st).2
  = spawned st ++
    [Call [cmake_path (self st); PStr "-G"; PStr gen;
           (if _posix (self st) then PStr s
            else PStr (String "'" (s +:+ "'")));
           project_directory (self st)]
          (project_directory (self st))].
Proof.
  intros F Q C.
  rewrite (run_cmake_launches w gen st
             [if _posix (self st) then PStr s
              else PStr (String "'" (s +:+ "'"))] C); [reflexivity|].
  rewrite (flag_tokens_string _ _ F). cbn [truthy].
  destruct (_posix (self st)).
  - apply split_single_quoted_posix, Q.
  - apply split_single_quoted_non_posix, Q.
Qed.

Lemma run_cmake_single_quoted_flags_witness :
  free_of "'" "-DMSG=a \ b" = true
  /\ common._check_binary sample.w "cmake" (PStr "/usr/bin/cmake") = Ok tt
  /\ spawned (run_cmake sample.w "Ninja"
                (sample.start (PStr "/usr/bin/cmake")
                              (PStr "'-DMSG=a \ b'"))).2
     = [] ++
       [Call [PStr "/usr/bin/cmake"; PStr "-G"; PStr "Ninja";
              PStr "-DMSG=a \ b"; PStr "/src/project"]
             (PStr "/src/project")].
Proof.
  split; [reflexivity|]. split; [reflexivity|].
  exact (run_cmake_single_quoted_flags sample.w "Ninja"
           (sample.start (PStr "/usr/bin/cmake") (PStr "'-DMSG=a \ b'"))
           "-DMSG=a \ b" eq_refl eq_refl eq_refl).
Defined.

(** X7: without POSIX rules nothing of the flags is lost but the
    separating whitespace: when [_posix] is false, the arguments that
    [run_cmake] launched between the generator and the project directory
    hold, in order, every character of [cmake_flags] that is not
    whitespace (quotes and backslashes included), and none of them is
    empty. *)
Theorem run_cmake_non_posix_keeps_characters w gen st flags tokens :
  cmake_flags (self st) = PStr flags ->
  _posix (self st) = false ->
  spawned (run_cmake w gen st).2
  = spawned st ++
    [Call ([cmake_path (self st); PStr "-G"; PStr gen] ++ tokens
           ++ [project_directory (self st)])
          (project_directory (self st))] ->
  solid (characters tokens) = solid (String.list_ascii_of_string flags)
  /\ Forall (fun tok => tok <> PStr "") tokens.
Proof.
  intros F P H. apply run_cmake_launched in H.
  rewrite (flag_tokens_string _ _ F), P in H.
  destruct flags as [|c s].
  - injection H as <-. split; [reflexivity | constructor].
  - cbn [truthy] in H. apply split_non_posix, H.
Qed.

Lemma run_cmake_non_posix_keeps_characters_witness :
  spawned (run_cmake sample.w "Ninja"
             (fixture.non_posix (PStr "/usr/bin/cmake")
                                (PStr "-DA='a  b'  -DB=c\ d"))).2
  = [] ++
    [Call ([PStr "/usr/bin/cmake"; PStr "-G"; PStr "Ninja"]
           ++ [PStr "-DA='a"; PStr "b'"; PStr "-DB=c\"; PStr "d"]
           ++ [PStr "/src/project"])
          (PStr "/src/project")]
  /\ solid (characters [PStr "-DA='a"; PStr "b'"; PStr "-DB=c\"; PStr "d"])
     = solid (String.list_ascii_of_string "-DA='a  b'  -DB=c\ d")
  /\ Forall (fun tok => tok <> PStr "")
            [PStr "-DA='a"; PStr "b'"; PStr "-DB=c\"; PStr "d"].
Proof.
  split; [vm_compute; reflexivity|].
  apply (run_cmake_non_posix_keeps_characters sample.w "Ninja"
           (fixture.non_posix (PStr "/usr/bin/cmake")
                              (PStr "-DA='a  b'  -DB=c\ d"))
           "-DA='a  b'  -DB=c\ d"
           [PStr "-DA='a"; PStr "b'"; PStr "-DB=c\"; PStr "d"]
           eq_refl eq_refl).
  vm_compute. reflexivity.
Defined.

(** X8: in both modes the lexer makes up nothing: the arguments that
    [run_cmake] launched between the generator and the project directory
    are, put end to end, a subsequence of the characters of [cmake_flags];
    characters are dropped (whitespace, and with POSIX rules quotes and
    escapes), never added and never reordered. *)
Theorem run_cmake_arguments_from_flags w gen st flags tokens :
  cmake_flags (self st) = PStr flags ->
  spawned (run_cmake w gen st).2
  = spawned st ++
    [Call ([cmake_path (self st); PStr "-G"; PStr gen] ++ tokens
           ++ [project_directory (self st)])
          (project_directory (self st))] ->
  characters tokens `sublist_of` String.list_ascii_of_string flags.
Proof.
  intros F H. apply run_cmake_launched in H.
  rewrite (flag_tokens_string _ _ F) in H.
  destruct (truthy (PStr flags)).
  - eapply split_sublist, H.
  - injection H as <-. apply sublist_nil_l.
Qed.

Lemma run_cmake_arguments_from_flags_witness :
  spawned (run_cmake sample.w "Ninja"
             (sample.start (PStr "/usr/bin/cmake")
                           (PStr "-DA='a  b'  -DB=c\ d"))).2
  = [] ++
    [Call ([PStr "/usr/bin/cmake"; PStr "-G"; PStr "Ninja"]
           ++ [PStr "-DA=a  b"; PStr "-DB=c d"]
           ++ [PStr "/src/project"])
          (PStr "/src/project")]
  /\ characters [PStr "-DA=a  b"; PStr "-DB=c d"]
     `sublist_of` String.list_ascii_of_string "-DA='a  b'  -DB=c\ d".
Proof.
  split; [vm_compute; reflexivity|].
  apply (run_cmake_arguments_from_flags sample.w "Ninja"
           (sample.start (PStr "/usr/bin/cmake")
                         (PStr "-DA='a  b'  -DB=c\ d"))
           "-DA='a  b'  -DB=c\ d"
           [PStr "-DA=a  b"; PStr "-DB=c d"] eq_refl).
  vm_compute. reflexivity.
Defined.

(** *** build_defaults, the constructor and add_arguments *)

(** X9: [build_defaults] only sets its two keys: every other entry of the
    base class's defaults is returned as it is, and no other key is
    added. *)
Theorem build_defaults_keeps_base w base key :
  key <> "cmake_path" -> key <> "cmake_flags" ->
  build_defaults w base !! key = common.build_defaults base !! key.
Proof.
  intros H1 H2. unfold build_defaults, _CMAKE_PATH, _CMAKE_FLAGS.
  rewrite !lookup_insert_ne by congruence. reflexivity.
Qed.

Lemma build_defaults_keeps_base_witness :
  "verbose" <> "cmake_path" /\ "verbose" <> "cmake_flags"
  /\ build_defaults fixture.shadowed fixture.base !! "verbose"
     = Some (PBool false).
Proof.
  split; [discriminate|]. split; [discriminate|].
  exact (build_defaults_keeps_base fixture.shadowed fixture.base "verbose"
           ltac:(discriminate) ltac:(discriminate)).
Defined.

(** X10: the constructor accepts what [build_defaults] returns: whenever
    the base initializer accepts the defaults, the object is constructed
    (no [KeyError], no [TypeError]), with [cmake_path] the non-empty
    [CMAKE_PATH] or else the [cmake] found on the search path, and
    [cmake_flags] the value of [CMAKE_FLAGS]. *)
Theorem init_from_build_defaults w base super :
  common.__init__ base (ArgDict (build_defaults w base)) = Ok super ->
  __init__ base (ArgDict (build_defaults w base))
  = Ok (Build super
          (or_ (os.getenv w "CMAKE_PATH") (os.find_executable w "cmake"))
          (os.getenv w "CMAKE_FLAGS")).
Proof. intros H. rewrite init_build_defaults_eq, H. reflexivity. Qed.

Lemma init_from_build_defaults_witness :
  common.__init__ fixture.base
    (ArgDict (build_defaults fixture.shadowed fixture.base))
  = Ok (common.Build (PStr "/src/project") true)
  /\ __init__ fixture.base
       (ArgDict (build_defaults fixture.shadowed fixture.base))
     = Ok (Build (common.Build (PStr "/src/project") true)
             (PStr "/opt/cmake/bin/cmake") PNone).
Proof.
  split; [reflexivity|].
  exact (init_from_build_defaults fixture.shadowed fixture.base
           (common.Build (PStr "/src/project") true) eq_refl).
Defined.

(** X11: the constructor returns an object exactly when the base
    initializer accepts the arguments, the arguments are a dict or have an
    attribute dictionary, and that mapping has both keys; the fields then
    hold the two entries as they are, whatever their type, and the rest of
    the mapping is not looked at. *)
Theorem init_constructs_iff base a env :
  __init__ base a = Ok env
  <-> exists d,
        (a = ArgDict d \/ a = ArgObject d)
        /\ common.__init__ base a = Ok (super env)
        /\ d !! "cmake_path" = Some (cmake_path env)
        /\ d !! "cmake_flags" = Some (cmake_flags env).
Proof.
  unfold __init__, mbind, result_bind, Py.bind, vars, getitem,
    _CMAKE_PATH, _CMAKE_FLAGS.
  split.
  - destruct (common.__init__ base a) as [s|e]; [|discriminate].
    destruct a as [d|d|v]; [| |discriminate];
      (destruct (d !! "cmake_path") as [path|] eqn:P; [|discriminate]);
      (destruct (d !! "cmake_flags") as [flags|] eqn:F; [|discriminate]);
      intros [= <-]; exists d; cbn; auto.
  - intros (d & Ha & Hs & Hp & Hf). rewrite Hs.
    destruct Ha as [-> | ->]; rewrite Hp, Hf; destruct env; reflexivity.
Qed.

(** X12: [add_arguments] returns normally exactly when the base class's
    registration does and none of [-c], [--cmake_path], [-F],
    [--cmake_flags] is taken on the parser it leaves. *)
Theorem add_arguments_succeeds_iff w base p :
  (exists p', add_arguments w base p = (Ok tt, p'))
  <-> (exists p0,
          common.add_arguments base p = (Ok tt, p0)
          /\ Forall (fun f => f ∉ argparse.registered p0)
                    ["-c"; "--cmake_path"; "-F"; "--cmake_flags"]).
Proof.
  rewrite add_arguments_eq. unfold argparse.add_argument.
  destruct (common.add_arguments base p) as [[[]|e] p0].
  2: { split; [intros (p' & [=]) | intros (p1 & [=] & _)]. }
  assert (Forall (fun f => f ∉ argparse.registered p0)
                 (["-c"; "--cmake_path"] ++ ["-F"; "--cmake_flags"])
          <-> Forall (fun f => f ∉ argparse.registered p0)
                     ["-c"; "--cmake_path"]
              /\ Forall (fun f => f ∉ argparse.registered p0)
                        ["-F"; "--cmake_flags"]) as Both
    by apply Forall_app.
  cbn [app] in Both.
  destruct (existsb _ ["-c"; "--cmake_path"]) eqn:E1.
  - split; [intros (p' & [=])|]. intros (p1 & [= <-] & H).
    apply Both in H as [H _]. apply no_conflict_iff in H. congruence.
  - set (a := argparse.Action ["-c"; "--cmake_path"] "Path to CMake binary"
                "cmake_path"
                (or_ (os.getenv w "CMAKE_PATH")
                     (os.find_executable w "cmake"))).
    pose proof (second_option_free p0 a eq_refl) as Free.
    destruct (existsb _ ["-F"; "--cmake_flags"]) eqn:E2.
    + split; [intros (p' & [=])|]. intros (p1 & [= <-] & H).
      apply Both in H as [_ H]. apply Free, no_conflict_iff in H. congruence.
    + split; [|eauto]. intros _. exists p0. split; [reflexivity|].
      apply Both. split; [apply no_conflict_iff, E1|].
      apply Free, no_conflict_iff, E2.
Qed.

(** X13: a conflict with an option that is already registered (with
    argparse's default conflict handler). When [-c] or [--cmake_path] is
    taken, [add_arguments] raises [ArgumentError] and leaves the parser as
    the base class left it. When only [-F] or [--cmake_flags] is taken, it
    raises after it has registered [-c] / [--cmake_path]: the parser keeps
    that option. *)
Theorem add_arguments_conflict w base p p0 :
  common.add_arguments base p = (Ok tt, p0) ->
  ("-c" ∈ argparse.registered p0 \/ "--cmake_path" ∈ argparse.registered p0 ->
   exists msg, add_arguments w base p = (Raise (ArgumentError msg), p0))
  /\ ("-c" ∉ argparse.registered p0 ->
      "--cmake_path" ∉ argparse.registered p0 ->
      "-F" ∈ argparse.registered p0
      \/ "--cmake_flags" ∈ argparse.registered p0 ->
      exists msg path,
        build_defaults w base !! "cmake_path" = Some path
        /\ add_arguments w base p
           = (Raise (ArgumentError msg),
              p0 ++ [argparse.Action ["-c"; "--cmake_path"]
                       "Path to CMake binary" "cmake_path" path])).
Proof.
  intros B. rewrite add_arguments_eq, B. unfold argparse.add_argument.
  split.
  - intros H.
    assert (existsb (fun f => bool_decide (f ∈ argparse.registered p0))
                    ["-c"; "--cmake_path"] = true) as ->; [|eauto].
    apply conflict_iff. destruct H as [H | H];
      [left | right; left]; exact H.
  - intros H1 H2 H.
    assert (existsb (fun f => bool_decide (f ∈ argparse.registered p0))
                    ["-c"; "--cmake_path"] = false) as ->.
    { apply no_conflict_iff. repeat constructor; assumption. }
    eexists _, _. split; [apply defaults_facts.lookup_cmake_path|].
    match goal with
    | |- (if existsb ?f ?l then _ else _) = _ =>
        assert (existsb f l = true) as ->; [|reflexivity]
    end.
    apply conflict_iff. rewrite registered_app. cbn [argparse.option_strings].
    destruct H as [H | H]; [left | right; left];
      apply elem_of_app; left; exact H.
Qed.

Lemma add_arguments_conflict_witness :
  common.add_arguments fixture.base fixture.taken = (Ok tt, fixture.taken)
  /\ ("-c" ∉ argparse.registered fixture.taken)
  /\ ("--cmake_path" ∉ argparse.registered fixture.taken)
  /\ ("-F" ∈ argparse.registered fixture.taken
      \/ "--cmake_flags" ∈ argparse.registered fixture.taken)
  /\ exists msg path,
       build_defaults fixture.shadowed fixture.base !! "cmake_path"
       = Some path
       /\ add_arguments fixture.shadowed fixture.base fixture.taken
          = (Raise (ArgumentError msg),
             fixture.taken
             ++ [argparse.Action ["-c"; "--cmake_path"]
                   "Path to CMake binary" "cmake_path" path]).
Proof.
  split; [reflexivity|].
  split; [apply (bool_decide_unpack _); vm_compute; exact I|].
  split; [apply (bool_decide_unpack _); vm_compute; exact I|].
  split; [left; apply (bool_decide_unpack _); vm_compute; exact I|].
  apply (proj2 (add_arguments_conflict fixture.shadowed fixture.base
                  fixture.taken fixture.taken eq_refl)).
  - apply (bool_decide_unpack _). vm_compute. exact I.
  - apply (bool_decide_unpack _). vm_compute. exact I.
  - left. apply (bool_decide_unpack _). vm_compute. exact I.
Defined.

(** *** From the environment to the launch *)

(** X14: the docstring's case of a missing cmake. When [CMAKE_PATH] is
    unset or empty and no [cmake] is on the search path, the object
    constructed from [build_defaults] has no [cmake_path], and [run_cmake]
    on it raises [ToolPathError] and launches nothing, whatever
    [CMAKE_FLAGS] holds. *)
Theorem run_cmake_without_cmake w base env gen launched :
  truthy (os.getenv w "CMAKE_PATH") = false ->
  os.search_path w "cmake" = None ->
  __init__ base (ArgDict (build_defaults w base)) = Ok env ->
  cmake_path env = PNone
  /\ run_cmake w gen (State env launched)
     = (Raise (ToolPathError "cmake" PNone), State env launched).
Proof.
  intros E S. rewrite init_build_defaults_eq.
  destruct (common.__init__ base _) as [super|e]; [|discriminate].
  intros [= <-]. rewrite run_cmake_eq. cbn [self cmake_path].
  unfold or_, os.find_executable. rewrite E, S. auto.
Qed.

Lemma run_cmake_without_cmake_witness :
  truthy (os.getenv fixture.bare "CMAKE_PATH") = false
  /\ os.search_path fixture.bare "cmake" = None
  /\ __init__ fixture.base
       (ArgDict (build_defaults fixture.bare fixture.base))
     = Ok (Build (common.Build (PStr "/src/project") true) PNone PNone)
  /\ cmake_path (Build (common.Build (PStr "/src/project") true)
                       PNone PNone) = PNone
  /\ run_cmake fixture.bare "Unix Makefiles"
       (State (Build (common.Build (PStr "/src/project") true) PNone PNone)
              [])
     = (Raise (ToolPathError "cmake" PNone),
        State (Build (common.Build (PStr "/src/project") true) PNone PNone)
              []).
Proof.
  split; [reflexivity|]. split; [reflexivity|]. split; [reflexivity|].
  exact (run_cmake_without_cmake fixture.bare fixture.base
           (Build (common.Build (PStr "/src/project") true) PNone PNone)
           "Unix Makefiles" [] eq_refl eq_refl eq_refl).
Defined.

(** X15: a configured path is never replaced. When [CMAKE_PATH] is set to
    a non-empty path that is no executable file, the object constructed
    from [build_defaults] holds that path, and [run_cmake] on it raises
    [ToolPathError] for that path and launches nothing, even when a
    working [cmake] is on the search path. *)
Theorem run_cmake_keeps_configured_path w base env gen launched p :
  os.environ w !! "CMAKE_PATH" = Some p ->
  p <> "" ->
  os.is_executable w p = false ->
  __init__ base (ArgDict (build_defaults w base)) = Ok env ->
  cmake_path env = PStr p
  /\ run_cmake w gen (State env launched)
     = (Raise (ToolPathError "cmake" (PStr p)), State env launched).
Proof.
  intros E N X. rewrite init_build_defaults_eq.
  destruct (common.__init__ base _) as [super|e]; [|discriminate].
  intros [= <-]. rewrite run_cmake_eq. cbn [self cmake_path].
  unfold or_, os.getenv. rewrite E.
  destruct p as [|c s]; [destruct (N eq_refl)|].
  cbn [truthy]. split; [reflexivity|].
  unfold common._check_binary. cbn [truthy]. rewrite X. reflexivity.
Qed.

Lemma run_cmake_keeps_configured_path_witness :
  os.environ fixture.shadowed !! "CMAKE_PATH" = Some "/opt/cmake/bin/cmake"
  /\ "/opt/cmake/bin/cmake" <> ""
  /\ os.is_executable fixture.shadowed "/opt/cmake/bin/cmake" = false
  /\ os.find_executable fixture.shadowed "cmake" = PStr "/usr/bin/cmake"
  /\ os.is_executable fixture.shadowed "/usr/bin/cmake" = true
  /\ cmake_path (Build (common.Build (PStr "/src/project") true)
                       (PStr "/opt/cmake/bin/cmake") PNone)
     = PStr "/opt/cmake/bin/cmake"
  /\ run_cmake fixture.shadowed "Unix Makefiles"
       (State (Build (common.Build (PStr "/src/project") true)
                     (PStr "/opt/cmake/bin/cmake") PNone) [])
     = (Raise (ToolPathError "cmake" (PStr "/opt/cmake/bin/cmake")),
        State (Build (common.Build (PStr "/src/project") true)
                     (PStr "/opt/cmake/bin/cmake") PNone) []).
Proof.
  split; [reflexivity|]. split; [discriminate|]. split; [reflexivity|].
  split; [reflexivity|]. split; [reflexivity|].
  exact (run_cmake_keeps_configured_path fixture.shadowed fixture.base
           (Build (common.Build (PStr "/src/project") true)
                  (PStr "/opt/cmake/bin/cmake") PNone)
           "Unix Makefiles" [] "/opt/cmake/bin/cmake"
           eq_refl ltac:(discriminate) eq_refl eq_refl).
Defined.

End Extras.
